(** * A shallow embedding of the DermCareAI backend

    The backend (src/backend) is a FastAPI service: [ImagePreprocessing.py]
    cleans the uploaded image, [app.py] runs a two-stage cascade
    (MobileNetV2, then NASNetMobile) and [grad_cam.py] produces the
    attribution heatmap and its overlay.

    Conventions of the embedding:
    - Python exceptions are values of [exn]; a Python computation that may
      raise is a value of [Exc A]; [try ... except Exception] is
      [try_except].
    - Library primitives (OpenCV, PIL, the trained networks) are fields of
      records or classes, so every theorem holds for every behaviour of the
      library, and concrete instances evaluate the code on concrete inputs.
    - Floating-point numbers are modelled by rationals [Q]. *)

From Stdlib Require Import String List ZArith QArith Qminmax Qround Qfield Lqa Lia Bool.
Import ListNotations.
Open Scope string_scope.

(* ------------------------------------------------------------------ *)
(** ** Python exceptions and the error monad *)

Inductive exn : Type :=
| ValueError (msg : string)
| AttributeError (msg : string)
| KeyError
| IndexError
| UnboundLocalError (msg : string)
| Cv2Error (msg : string)
| UnidentifiedImageError
| HTTPException (status_code : Z) (detail : string).

(** [str(e)] of an exception (only the shape matters for the claims). *)
Definition py_str (e : exn) : string :=
  match e with
  | ValueError m | AttributeError m | UnboundLocalError m | Cv2Error m => m
  | KeyError => "KeyError"
  | IndexError => "IndexError"
  | UnidentifiedImageError => "cannot identify image file"
  | HTTPException _ d => d
  end.

Inductive Exc (A : Type) : Type :=
| Ok (a : A)
| Raise (e : exn).
Arguments Ok {A} a.
Arguments Raise {A} e.

Definition exc_bind {A B} (m : Exc A) (k : A -> Exc B) : Exc B :=
  match m with
  | Ok a => k a
  | Raise e => Raise e
  end.

(** [try: m except Exception as e: handler e] *)
Definition try_except {A} (m : Exc A) (handler : exn -> Exc A) : Exc A :=
  match m with
  | Ok a => Ok a
  | Raise e => handler e
  end.

Declare Scope exc_scope.
Notation "x <- m ;; k" := (exc_bind m (fun x => k))
  (at level 61, m at next level, right associativity) : exc_scope.
Open Scope exc_scope.

(** Python list indexing [xs[i]] (an [IndexError] out of range). *)
Definition py_index {A} (xs : list A) (i : nat) : Exc A :=
  match nth_error xs i with
  | Some a => Ok a
  | None => Raise IndexError
  end.

(** Dict lookup [d[k]] on a dict whose keys are [0 .. n-1] in order
    (the literal [nasnet_classes] table and NASNet's [probabilities]). *)
Definition py_dict_get {A} (d : list A) (k : nat) : Exc A :=
  match nth_error d k with
  | Some a => Ok a
  | None => Raise KeyError
  end.

(* ------------------------------------------------------------------ *)
(** ** ImagePreprocessing.py *)

(** The OpenCV calls the preprocessor makes, over an image type [img].
    Each may raise (a [cv2.error]); [imdecode] returns [None] on failure
    instead of raising, as OpenCV does. *)
Class Cv2 (img : Type) := {
  cvtColor_RGB2GRAY : img -> Exc img;
  cvtColor_BGR2RGB : option img -> Exc img;
  morphologyEx_BLACKHAT : img -> nat -> Exc img;  (* square kernel side *)
  threshold_BINARY : img -> Z -> Z -> Exc img;
  inpaint_TELEA : img -> img -> nat -> Exc img;
  GaussianBlur : img -> Q -> Exc img;
  addWeighted : img -> Q -> img -> Q -> Q -> Exc img;
  resize_NEAREST : img -> nat * nat -> Exc img;
  imdecode_COLOR : list Byte.byte -> option img
}.

Section Preprocessing.
Context {img : Type} `{Cv2 img}.

(** [ImagePreprocessor.hair_remove]: the body of the [try]. *)
Definition hair_remove_body (image : img) : Exc img :=
  gray_scale <- cvtColor_RGB2GRAY image ;;
  blackhat <- morphologyEx_BLACKHAT gray_scale 17 ;;
  threshold <- threshold_BINARY blackhat 10 255 ;;
  final_image <- inpaint_TELEA image threshold 1 ;;
  Ok final_image.

(** [ImagePreprocessor.hair_remove]: on any exception, the input. *)
Definition hair_remove (image : img) : Exc img :=
  try_except (hair_remove_body image) (fun _ => Ok image).

(** [ImagePreprocessor.sharpen_image]: the body of the [try]. *)
Definition sharpen_body (image : img) : Exc img :=
  gaussian <- GaussianBlur image 2 ;;
  addWeighted image (3 # 2) gaussian (-1 # 2) 0.

Definition sharpen_image (image : img) : Exc img :=
  try_except (sharpen_body image) (fun _ => Ok image).

(** [ImagePreprocessor.preprocess]; [None] is Python's [None]. *)
Definition preprocess (target_size : nat * nat) (image : img)
  : Exc (option img) :=
  try_except
    (image <- hair_remove image ;;
     image <- sharpen_image image ;;
     image <- resize_NEAREST image target_size ;;
     Ok (Some image))
    (fun _ => Ok None).

(** [ImagePreprocessor.process_bytes]. *)
Definition process_bytes (target_size : nat * nat) (image_bytes : list Byte.byte)
  : Exc (option img) :=
  try_except
    (image <- cvtColor_BGR2RGB (imdecode_COLOR image_bytes) ;;
     preprocess target_size image)
    (fun _ => Ok None).

End Preprocessing.

(* ------------------------------------------------------------------ *)
(** ** grad_cam.py *)

Open Scope Q_scope.

(** A single-channel grid (rows of cells) and a three-dimensional tensor
    (a list of such grids). *)
Definition grid := list (list Q).

Definition zip_with {A B C} (f : A -> B -> C) : list A -> list B -> list C :=
  fix go xs ys :=
    match xs, ys with
    | x :: xs', y :: ys' => f x y :: go xs' ys'
    | _, _ => []
    end.

Definition add_grid (g1 g2 : grid) : grid := zip_with (zip_with Qplus) g1 g2.
Definition scale_grid (a : Q) (g : grid) : grid := map (map (Qmult a)) g.
Definition zeros_like (g : grid) : grid := map (map (fun _ => 0)) g.
Definition sum_list (l : list Q) : Q := fold_right Qplus 0 l.

(** [np.mean] / [torch.mean] over all cells of a grid. *)
Definition mean_grid (g : grid) : Q :=
  sum_list (concat g) / inject_Z (Z.of_nat (length (concat g))).

(** [x.min()] and [x.max()] over all cells (a [ValueError] when empty). *)
Definition list_min (l : list Q) : Exc Q :=
  match l with
  | [] => Raise (ValueError "zero-size array to reduction operation minimum which has no identity")
  | x :: xs => Ok (fold_left Qmin xs x)
  end.

Definition list_max (l : list Q) : Exc Q :=
  match l with
  | [] => Raise (ValueError "zero-size array to reduction operation maximum which has no identity")
  | x :: xs => Ok (fold_left Qmax xs x)
  end.

(** The [1e-8] guard of the PyTorch normalisation. *)
Definition eps : Q := 1 # 100000000.

(** *** The network seen by the attribution code

    A network whose target layer is a 1x1 convolution (channel mixing,
    [feat] is the [C_out x C_in] matrix) followed by a dense head ([head]
    holds, per class, a weight tensor over the [C_out x H x W]
    activation). Its gradients, as [backward] / [GradientTape] return
    them, are written out by the chain rule below. *)
Record conv_net := mk_net {
  feat : list (list Q);
  head : list (list grid)
}.

(** The activation of the target layer on a [C_in x H x W] input. *)
Definition weighted_sum (shape : grid) (ws : list Q) (gs : list grid) : grid :=
  fold_left (fun acc p => add_grid acc (scale_grid (fst p) (snd p)))
            (combine ws gs) (zeros_like shape).

Definition first_grid (gs : list grid) : grid :=
  match gs with [] => [] | g :: _ => g end.

Definition activation (net : conv_net) (x : list grid) : list grid :=
  map (fun row => weighted_sum (first_grid x) row x) (feat net).

(** Output score of class [k]: the inner product of [head[k]] with the
    activation. *)
Definition grid_dot (g1 g2 : grid) : Q := sum_list (concat (zip_with (zip_with Qmult) g1 g2)).

Definition logit (net : conv_net) (k : nat) (x : list grid) : Q :=
  sum_list (zip_with grid_dot (nth k (head net) []) (activation net x)).

(** Gradient of [logit k] with respect to the activation: [head[k]]. *)
Definition act_grad (net : conv_net) (k : nat) : list grid :=
  nth k (head net) [].

(** Gradient of [logit k] with respect to the input: channel [d] is
    [sum_c feat[c][d] * head[k][c]]. *)
Definition input_grad (net : conv_net) (k : nat) (x : list grid) : list grid :=
  map (fun d => weighted_sum (first_grid x)
                   (map (fun row => nth d row 0) (feat net)) (act_grad net k))
      (seq 0 (length x)).

(** *** [pytorch_grad_cam] *)

(** [F.relu], then [(h - h.min()) / (h.max() - h.min() + 1e-8)]. *)
Definition pytorch_normalize (heatmap : grid) : Exc grid :=
  let heatmap := map (map (Qmax 0)) heatmap in
  mn <- list_min (concat heatmap) ;;
  mx <- list_max (concat heatmap) ;;
  Ok (map (map (fun h => (h - mn) / (mx - mn + eps))) heatmap).

(** [for i, w in enumerate(weights[0]): heatmap += w * features[0, i]] *)
Fixpoint accumulate (heatmap : grid) (features : list grid) (i : nat)
  (weights : list Q) : Exc grid :=
  match weights with
  | [] => Ok heatmap
  | w :: ws =>
      f <- py_index features i ;;
      accumulate (add_grid heatmap (scale_grid w f)) features (S i) ws
  end.

(** The per-channel weights of [pytorch_grad_cam]: [input_tensor.grad]
    averaged over dims (2, 3). *)
Definition pytorch_weights (net : conv_net) (x : list grid) (target_class : nat)
  : list Q :=
  map mean_grid (input_grad net target_class x).

(** The heatmap [pytorch_grad_cam] returns (its second component).
    [one_hot[0][target_class] = 1] indexes the row of class scores, one
    per entry of [head]: an [IndexError] for a class out of range. *)
Definition pytorch_grad_cam_heatmap (net : conv_net) (x : list grid)
  (target_class : nat) : Exc grid :=
  _ <- py_index (head net) target_class ;;
  let gradients := input_grad net target_class x in
  let features := activation net x in
  let weights := map mean_grid gradients in
  heatmap <- accumulate (zeros_like (first_grid features)) features 0 weights ;;
  pytorch_normalize heatmap.

(** Grad-CAM as the spec describes it: weights are the spatial means of
    the gradient with respect to the captured activation, the heatmap is
    [sum_c weight[c] * activation[c]]. *)
Definition gradcam_spec_weights (net : conv_net) (target_class : nat) : list Q :=
  map mean_grid (act_grad net target_class).

Definition gradcam_spec_raw_heatmap (net : conv_net) (x : list grid)
  (target_class : nat) : grid :=
  let features := activation net x in
  weighted_sum (first_grid features) (gradcam_spec_weights net target_class) features.

(** *** [tensorflow_grad_cam] *)

(** A channel-last tensor of one batch element: rows of pixels, each a
    list of channel values. *)
Definition hwc := list (list (list Q)).

(** [tf.reduce_mean(grads, axis=(1, 2))]: one mean per channel. *)
Definition tf_weights (grads : hwc) : list Q :=
  let pixels := concat grads in
  let nchan := match pixels with [] => 0%nat | p :: _ => length p end in
  map (fun c => mean_grid [map (fun p => nth c p 0) pixels]) (seq 0 nchan).

(** [tf.reduce_sum(weights * conv_output, axis=-1)]. *)
Definition tf_raw_heatmap (weights : list Q) (conv_output : hwc) : grid :=
  map (map (fun p => sum_list (zip_with Qmult weights p))) conv_output.

(** Floating-point division; [None] is the NaN (or infinity) of a
    division by zero. *)
Definition fdiv (x y : Q) : option Q :=
  if Qeq_bool y 0 then None else Some (x / y).

(** [tf.math.reduce_max] over all cells. *)
Definition tf_reduce_max (h : grid) : Q :=
  match concat h with [] => 0 | x :: xs => fold_left Qmax xs x end.

(** [tf.maximum(heatmap, 0) / tf.math.reduce_max(heatmap)]. *)
Definition tf_normalize (heatmap : grid) : list (list (option Q)) :=
  let m := tf_reduce_max heatmap in
  map (map (fun h => fdiv (Qmax h 0) m)) heatmap.

(** The heatmap [tensorflow_grad_cam] returns, from the tape's
    [conv_output] and [grads]. *)
Definition tensorflow_grad_cam_heatmap (conv_output grads : hwc)
  : list (list (option Q)) :=
  tf_normalize (tf_raw_heatmap (tf_weights grads) conv_output).

(** *** Resolving the target layer *)

Inductive layer_kind : Type := Conv2D | OtherLayer.

(** [pytorch_grad_cam], lines "Get the target layer": the first module of
    [named_modules()] whose name is [layer_name]. *)
Fixpoint find_named_module (named_modules : list (string * layer_kind))
  (layer_name : string) : option layer_kind :=
  match named_modules with
  | [] => None
  | (name, module) :: rest =>
      if String.eqb name layer_name then Some module
      else find_named_module rest layer_name
  end.

Definition pytorch_target_layer (named_modules : list (string * layer_kind))
  (layer_name : string) : Exc layer_kind :=
  match find_named_module named_modules layer_name with
  | Some target_layer => Ok target_layer
  | None => Raise (ValueError ("Layer " ++ layer_name ++ " not found in model"))
  end.

Record keras_layer := mk_layer { lname : string; lkind : layer_kind }.

(** Keras [model.get_layer(name)]. *)
Definition get_layer (layers : list keras_layer) (name : string) : Exc keras_layer :=
  match find (fun l => String.eqb (lname l) name) layers with
  | Some l => Ok l
  | None => Raise (ValueError ("No such layer: " ++ name))
  end.

Definition is_conv2d (l : keras_layer) : bool :=
  match lkind l with Conv2D => true | OtherLayer => false end.

(** [tensorflow_grad_cam], lines "Get the target layer". In the
    [except ValueError] branch the local [target_layer] is bound only if
    the reversed scan meets a [Conv2D]; reading it unbound in
    [if not target_layer] raises [UnboundLocalError]. A bound Keras layer
    is truthy, so the [raise ValueError] after it is never reached. *)
Definition tensorflow_target_layer (layers : list keras_layer)
  (layer_name : string) : Exc keras_layer :=
  match get_layer layers layer_name with
  | Ok target_layer => Ok target_layer
  | Raise (ValueError _) =>
      match find is_conv2d (rev layers) with
      | Some target_layer => Ok target_layer
      | None => Raise (UnboundLocalError
                  "cannot access local variable 'target_layer' where it is not associated with a value")
      end
  | Raise e => Raise e
  end.

(** *** [apply_grad_cam] *)

(** [cv2.resize(heatmap, (W, H))] with linear interpolation: every output
    cell is a weighted combination of input cells; [taps] gives, for the
    source size, destination size and output cell, the source cells and
    their coefficients. OpenCV rejects an empty source and an empty
    destination size. *)
Definition resize_linear
  (taps : nat * nat -> nat * nat -> nat -> nat -> list (nat * nat * Q))
  (heatmap : grid) (dsize : nat * nat) : Exc grid :=
  let src := (length heatmap, length (hd [] heatmap)) in
  let '(w, h) := dsize in
  if (Nat.eqb (fst src) 0 || Nat.eqb (snd src) 0)%bool
  then Raise (Cv2Error "resize: !ssize.empty()")
  else if (Nat.eqb w 0 || Nat.eqb h 0)%bool
  then Raise (Cv2Error "resize: inv_scale_x > 0")
  else Ok (map (fun i =>
         map (fun j =>
                sum_list (map (fun t => snd t * nth (snd (fst t)) (nth (fst (fst t)) heatmap []) 0)
                              (taps src (h, w) i j)))
             (seq 0 w))
      (seq 0 h)).

(** [np.uint8(x)] of a float: truncation toward zero, then reduction
    modulo 256 (what numpy does for the values the code produces; only
    values in [0, 255] arise from a heatmap in [0,1]). *)
Definition np_uint8 (x : Q) : Q :=
  let t := if Qle_bool 0 x then Qfloor x else (- Qfloor (- x))%Z in
  inject_Z (t mod 256).

(** [np.clip(v, 0, 1)]. *)
Definition clip01 (v : Q) : Q := Qmin (Qmax v 0) 1.

(** One pixel of [heatmap_colored]: [np.zeros_like] of the image pixel
    with channel 0 set to the heatmap value. *)
Definition red_pixel (px : list Q) (v : Q) : list Q :=
  match px with
  | [] => []
  | _ :: rest => v :: map (fun _ => 0) rest
  end.

(** [apply_grad_cam(original_image, heatmap, alpha)] on a channel-last
    image: the heatmap, resized if its shape differs, scaled to
    [np.uint8(255 * heatmap)], is written to channel 0 of a zero image;
    the result is [clip(original + alpha * colored, 0, 1)]. *)
Definition apply_grad_cam
  (taps : nat * nat -> nat * nat -> nat -> nat -> list (nat * nat * Q))
  (original_image : hwc) (heatmap : grid) (alpha : Q) : Exc hwc :=
  let H := length original_image in
  let W := length (hd [] original_image) in
  heatmap <-
    (if Nat.eqb H (length heatmap) && forallb (fun r => Nat.eqb W (length r)) heatmap
     then Ok heatmap else resize_linear taps heatmap (W, H)) ;;
  let heatmap := map (map (fun v => np_uint8 (255 * v))) heatmap in
  let heatmap_colored :=
    zip_with (zip_with red_pixel) original_image heatmap in
  Ok (zip_with (zip_with (zip_with (fun o c => clip01 (o + alpha * c))))
               original_image heatmap_colored).

(* ------------------------------------------------------------------ *)
(** ** app.py: [ModelService.process_image] *)

(** The adapters whose calls the cascade makes, logged in order. *)
Inductive call : Type :=
| Stage1Predict            (* self.mobilenet.predict *)
| Stage1Gradcam            (* self.mobilenet.gradcam_visualization *)
| Stage2PredictWithGradcam (* self.nasnet.predict_with_gradcam *).

(** A computation that logs adapter calls and may raise. *)
Definition Traced (A : Type) : Type := list call * Exc A.

Definition tret {A} (a : A) : Traced A := ([], Ok a).
Definition traise {A} (e : exn) : Traced A := ([], Raise e).
Definition lift {A} (m : Exc A) : Traced A := ([], m).
Definition invoke {A} (c : call) (m : Exc A) : Traced A := ([c], m).

Definition tbind {A B} (m : Traced A) (k : A -> Traced B) : Traced B :=
  match m with
  | (l, Ok a) => let (l', r) := k a in (app l l', r)
  | (l, Raise e) => (l, Raise e)
  end.

Definition ttry_except {A} (m : Traced A) (handler : exn -> Traced A) : Traced A :=
  match m with
  | (l, Ok a) => (l, Ok a)
  | (l, Raise e) => let (l', r) := handler e in (app l l', r)
  end.

Notation "x <~ m ;; k" := (tbind m (fun x => k))
  (at level 61, m at next level, right associativity) : exc_scope.

(** [MobileNetPredictor.predict] returns [class_index] and
    [probabilities]; [SkinLesionClassifier.predict_with_gradcam] also
    returns the overlay. *)
Record prediction := mk_prediction {
  class_index : nat;
  probabilities : list Q
}.

Record nasnet_result := mk_nasnet_result {
  nasnet_class_index : nat;
  nasnet_probabilities : list Q;   (* the dict [{i: prob}] *)
  gradcam_visualization : hwc
}.

Record response := mk_response {
  class_name : string;
  confidence : Q;
  model_used : string;
  visualization : string
}.

(** [torch.argmax]: the first index of a maximal element. *)
Fixpoint argmax_from (l : list Q) (i best : nat) (bv : Q) : nat :=
  match l with
  | [] => best
  | x :: xs => if Qlt_le_dec bv x then argmax_from xs (S i) i x
               else argmax_from xs (S i) best bv
  end.

Definition argmax (l : list Q) : nat :=
  match l with [] => 0 | x :: xs => argmax_from xs 1 0 x end.

(** The attributes of a [MobileNetPredictor] object: the methods of the
    class (it defines no [__getattr__]) and the instance fields set in
    [__init__]. *)
Definition MobileNetPredictor_attributes : list string :=
  ["config"; "device"; "model"; "transform";
   "__init__"; "_load_model"; "_get_transform"; "prepare_image";
   "predict"; "predict_with_gradcam"].

(** [getattr(self.mobilenet, name)]. *)
Definition mobilenet_getattr (name : string) : Exc unit :=
  if existsb (String.eqb name) MobileNetPredictor_attributes then Ok tt
  else Raise (AttributeError
                ("'MobileNetPredictor' object has no attribute '" ++ name ++ "'")).

(** The external collaborators of [ModelService]: PIL decoding, the two
    trained networks and the JPEG/base64 encoding. [stage1_gradcam] is
    what a call of [self.mobilenet.gradcam_visualization] would compute
    once the attribute lookup succeeded. *)
Record model_service (img : Type) := mk_service {
  pil_open_rgb : list Byte.byte -> Exc img;
  mobilenet_probabilities : img -> Exc (list Q);
  stage1_gradcam : img -> nat -> Exc hwc;
  nasnet_predict_with_gradcam : img -> Exc nasnet_result;
  encode_jpeg_base64 : hwc -> Exc string
}.
Arguments pil_open_rgb {img}.
Arguments mobilenet_probabilities {img}.
Arguments stage1_gradcam {img}.
Arguments nasnet_predict_with_gradcam {img}.
Arguments encode_jpeg_base64 {img}.

(** [self.nasnet_classes]. *)
Definition nasnet_classes : list string :=
  ["Actinic Keratosis"; "Basal Cell Carcinoma"; "Benign Keratosis";
   "Dermatofibroma"; "Melanoma"; "Melanocytic Nevus"; "Vascular Lesion"].

Section App.
Context {img : Type} `{Cv2 img} (svc : model_service img).

(** [MobileNetPredictor.predict]. *)
Definition mobilenet_predict (image_array : img) : Exc prediction :=
  probs <- mobilenet_probabilities svc image_array ;;
  Ok (mk_prediction (argmax probs) probs).

(** [ModelService.process_image]. *)
Definition process_image (image_bytes : list Byte.byte) : Traced response :=
  ttry_except
    (image_array <~ lift (pil_open_rgb svc image_bytes) ;;
     processed <~ lift (preprocess (224%nat, 224%nat) image_array) ;;
     processed_image <~
       match processed with
       | None => traise (HTTPException 400 "Image preprocessing failed")
       | Some p => tret p
       end ;;
     mobilenet_result <~ invoke Stage1Predict (mobilenet_predict processed_image) ;;
     let mobilenet_predicted_class := class_index mobilenet_result in
     mobilenet_confidence <~
       lift (py_index (probabilities mobilenet_result) mobilenet_predicted_class) ;;
     branch <~
       (if Nat.eqb mobilenet_predicted_class 0 then
          nasnet_result <~ invoke Stage2PredictWithGradcam
                              (nasnet_predict_with_gradcam svc processed_image) ;;
          final_class <~ lift (py_dict_get nasnet_classes (nasnet_class_index nasnet_result)) ;;
          final_confidence <~ lift (py_dict_get (nasnet_probabilities nasnet_result)
                                                (nasnet_class_index nasnet_result)) ;;
          tret (final_class, final_confidence, "NASNetMobile",
                gradcam_visualization nasnet_result)
        else
          _ <~ lift (mobilenet_getattr "gradcam_visualization") ;;
          visualization <~ invoke Stage1Gradcam
                             (stage1_gradcam svc processed_image mobilenet_predicted_class) ;;
          tret ("Melanoma", mobilenet_confidence, "MobileNetV2", visualization)) ;;
     let '(final_class, final_confidence, model_used, visualization) := branch in
     visualization_str <~ lift (encode_jpeg_base64 svc visualization) ;;
     tret (mk_response final_class final_confidence model_used visualization_str))
    (fun e => traise (HTTPException 500 (py_str e))).

(** The [/predict] endpoint. [file.content_type] is [None] for a part
    sent without a [Content-Type] header; [.startswith] then raises an
    [AttributeError], which is not an [HTTPException]. *)
Definition predict_endpoint (content_type : option string) (contents : list Byte.byte)
  : Traced response :=
  match content_type with
  | None => traise (AttributeError "'NoneType' object has no attribute 'startswith'")
  | Some ct =>
      if String.prefix "image/" ct then process_image contents
      else traise (HTTPException 400 "File must be an image")
  end.

End App.

(* ------------------------------------------------------------------ *)
(** ** Concrete instances: OpenCV and PIL on uniform images

    A uniform image ([rows x cols x chans], every sample equal to
    [level]) is closed under the operations the preprocessor applies, so
    the OpenCV calls can be computed exactly on it: the black-hat of a
    constant image is zero, blurring and inpainting leave it unchanged,
    and [addWeighted] acts on the common level. The argument checks are
    OpenCV's: colour conversion needs 3 or 4 channels, every call needs a
    non-empty source. *)
Record uimage := mk_uimage { rows : nat; cols : nat; chans : nat; level : Z }.

Definition u_nonempty (u : uimage) : bool :=
  (Nat.ltb 0 (rows u) && Nat.ltb 0 (cols u))%bool.

Definition u_colour (u : uimage) : bool :=
  (Nat.eqb (chans u) 3 || Nat.eqb (chans u) 4)%bool.

Definition with_level (u : uimage) (l : Z) : uimage :=
  mk_uimage (rows u) (cols u) (chans u) l.

(** [saturate_cast<uchar>]: round to nearest, clamp to [0, 255]. *)
Definition saturate_u8 (x : Q) : Z :=
  Z.max 0 (Z.min 255 (Qfloor (x + (1 # 2)))).

Definition cv_err {A} (msg : string) : Exc A := Raise (Cv2Error msg).

(** A raw encoding of a uniform image: the four bytes rows, cols,
    channels, level. *)
Definition decode_raw (bytes : list Byte.byte) : option uimage :=
  match bytes with
  | [r; c; ch; l] =>
      Some (mk_uimage (Byte.to_nat r) (Byte.to_nat c) (Byte.to_nat ch)
                      (Z.of_nat (Byte.to_nat l)))
  | _ => None
  end.

#[export] Instance uniform_cv2 : Cv2 uimage := {
  cvtColor_RGB2GRAY u :=
    if (u_nonempty u && u_colour u)%bool
    then Ok (mk_uimage (rows u) (cols u) 1 (level u))
    else cv_err "cvtColor: scn == 3 || scn == 4";
  cvtColor_BGR2RGB o :=
    match o with
    | None => cv_err "cvtColor: !_src.empty()"
    | Some u => if (u_nonempty u && u_colour u)%bool then Ok u
                else cv_err "cvtColor: scn == 3 || scn == 4"
    end;
  morphologyEx_BLACKHAT u _ :=
    if u_nonempty u then Ok (with_level u 0) else cv_err "morphologyEx: !src.empty()";
  threshold_BINARY u t m :=
    if u_nonempty u then Ok (with_level u (if Z.ltb t (level u) then m else 0))
    else cv_err "threshold: !src.empty()";
  inpaint_TELEA image mask _ :=
    if (u_nonempty image && Nat.eqb (rows mask) (rows image)
        && Nat.eqb (cols mask) (cols image) && Nat.eqb (chans mask) 1)%bool
    then Ok image else cv_err "inpaint: sizes of mask and image differ";
  GaussianBlur u _ :=
    if u_nonempty u then Ok u else cv_err "GaussianBlur: !_src.empty()";
  addWeighted a alpha b beta gamma :=
    if (u_nonempty a && Nat.eqb (rows a) (rows b) && Nat.eqb (cols a) (cols b)
        && Nat.eqb (chans a) (chans b))%bool
    then Ok (with_level a (saturate_u8 (alpha * inject_Z (level a)
                                        + beta * inject_Z (level b) + gamma)))
    else cv_err "addWeighted: src1.size == src2.size";
  resize_NEAREST u dsize :=
    if (u_nonempty u && Nat.ltb 0 (fst dsize) && Nat.ltb 0 (snd dsize))%bool
    then Ok (mk_uimage (snd dsize) (fst dsize) (chans u) (level u))
    else cv_err "resize: !ssize.empty()";
  imdecode_COLOR bytes :=
    match decode_raw bytes with
    | Some u => Some (mk_uimage (rows u) (cols u) 3 (level u))
    | None => None
    end
}.

(** [Image.open(...).convert('RGB')] and [np.array] on the raw encoding. *)
Definition pil_open_raw (bytes : list Byte.byte) : Exc uimage :=
  match decode_raw bytes with
  | Some u => Ok (mk_uimage (rows u) (cols u) 3 (level u))
  | None => Raise UnidentifiedImageError
  end.

(** A service with stub adapters, as in the spec's scenarios: Stage 1
    returns [stage1] as its probabilities, Stage 2 returns [stage2]. *)
Definition demo_service (stage1 : list Q) (stage2 : Exc nasnet_result)
  : model_service uimage :=
  mk_service uimage pil_open_raw (fun _ => Ok stage1) (fun _ _ => Ok [])
             (fun _ => stage2) (fun _ => Ok "/9j/4AAQ").

(** A 224 x 224 x 3 image, every sample 128 (mid gray). *)
Definition gray_image_bytes : list Byte.byte := [Byte.xe0; Byte.xe0; Byte.x03; Byte.x80].

(** A 224 x 224 single-channel image. *)
Definition gray1_image : uimage := mk_uimage 224 224 1 128.

(** A Stage-2 result of class 4. *)
Definition stage2_class4 : nasnet_result :=
  mk_nasnet_result 4 [1#20; 1#20; 1#20; 1#20; 7#10; 1#20; 0] [].

(** One input channel, a 1x1 image; the target layer has two channels
    ([2 * x] and [3 * x]) and class 0 scores the first of them. *)
Definition example_net : conv_net := mk_net [[2]; [3]] [[[[1]]; [[0]]]].
Definition example_input : list grid := [[[1]]].

(* ------------------------------------------------------------------ *)
(** ** More of grad_cam.py and MelanomaClassifier.py *)

(** [np.transpose(t, (1, 2, 0))] of a rectangular [C x H x W] tensor. *)
Definition chw_to_hwc (x : list grid) : hwc :=
  let g0 := first_grid x in
  map (fun i => map (fun j => map (fun ch => nth j (nth i ch []) 0) x)
                    (seq 0 (length (hd [] g0))))
      (seq 0 (length g0)).

(** [(t - t.min()) / (t.max() - t.min() + 1e-8)] over all samples. *)
Definition minmax_normalize (x : hwc) : Exc hwc :=
  mn <- list_min (concat (concat x)) ;;
  mx <- list_max (concat (concat x)) ;;
  Ok (map (map (map (fun v => (v - mn) / (mx - mn + eps)))) x).

(** The first component [pytorch_grad_cam] returns: the input tensor
    (batch element 0) moved to channel-last, min-max normalised. *)
Definition pytorch_original_image (input_tensor : list grid) : Exc hwc :=
  minmax_normalize (chw_to_hwc input_tensor).

(** The first component [tensorflow_grad_cam] returns, for its single
    batch element (which [predict_with_gradcam] takes as [[0]]). *)
Definition tf_original_image (input_tensor : hwc) : Exc hwc :=
  minmax_normalize input_tensor.

(** [ModelConfig]. *)
Record ModelConfig := mk_config {
  learning_rate : Q;
  dropout_rate : Q;
  batch_size : nat;
  num_unfreeze_stages : nat;
  layers_per_stage : nat;
  grad_clip_value : Q;
  patience : nat;
  num_epochs : nat;
  image_size : nat;
  num_classes : nat
}.

Definition default_config : ModelConfig :=
  mk_config (8 # 10000) (2 # 10) 32 4 3 (16514 # 10000) 10 50 224 2.

(** Python's [l[-k:]] for a non-negative [k]: the last [k] elements, the
    whole list when [k] exceeds its length, and also the whole list when
    [k = 0] (since [-0 == 0]). *)
Definition py_slice_neg (k : nat) {A} (l : list A) : list A :=
  if Nat.eqb k 0 then l else skipn (length l - k) l.

(** [requires_grad] after [MobileNetV2Classifier.__init__]: one flag per
    module of [model.features] (indexed [0 .. n-1]) and the flag of the
    new classifier. All parameters are frozen, the modules in
    [list(features)[-stages * per_stage:]] are unfrozen, then the
    classifier. *)
Record trainable_state := mk_trainable {
  features_trainable : list bool;
  classifier_trainable : bool
}.

Definition mobilenet_init_trainable (config : ModelConfig) (n_features : nat)
  : trainable_state :=
  let frozen := mk_trainable (map (fun _ => false) (seq 0 n_features)) false in
  let stages_to_unfreeze :=
    py_slice_neg (num_unfreeze_stages config * layers_per_stage config) (seq 0 n_features) in
  let unfrozen :=
    mk_trainable
      (map (fun i => if existsb (Nat.eqb i) stages_to_unfreeze then true
                     else nth i (features_trainable frozen) false)
           (seq 0 n_features))
      (classifier_trainable frozen) in
  mk_trainable (features_trainable unfrozen) true.

(* ------------------------------------------------------------------ *)
(** * Properties *)

Example preprocess_gray :
  preprocess (224%nat, 224%nat) (mk_uimage 300 400 3 128)
  = Ok (Some (mk_uimage 224 224 3 128)).
Proof. reflexivity. Qed.

Example process_image_stage2 :
  process_image (demo_service [9#10; 1#10] (Ok stage2_class4)) gray_image_bytes
  = ([Stage1Predict; Stage2PredictWithGradcam],
     Ok (mk_response "Melanoma" (7#10) "NASNetMobile" "/9j/4AAQ")).
Proof. vm_compute. reflexivity. Qed.


(** ** Preprocessing *)

Section PreprocessingFacts.
Context {img : Type} `{Cv2 img}.

Lemma hair_remove_total (x : img) : exists r, hair_remove x = Ok r.
Proof.
  unfold hair_remove, try_except.
  destruct (hair_remove_body x); eauto.
Qed.

Lemma sharpen_image_total (x : img) : exists r, sharpen_image x = Ok r.
Proof.
  unfold sharpen_image, try_except.
  destruct (sharpen_body x); eauto.
Qed.

Lemma sharpen_image_fail_soft (x : img) (e : exn) :
  sharpen_body x = Raise e -> sharpen_image x = Ok x.
Proof. intros Hs. unfold sharpen_image. rewrite Hs. reflexivity. Qed.

(** The resize step of [preprocess] applied to an already filtered image. *)
Lemma preprocess_unfold (ts : nat * nat) (x : img) :
  preprocess ts x =
  try_except (h <- hair_remove x ;; s <- sharpen_image h ;;
              r <- resize_NEAREST s ts ;; Ok (Some r)) (fun _ => Ok None).
Proof. reflexivity. Qed.

(** [C7] When the body of [hair_remove] raises, [hair_remove] returns its
    input unchanged, so [preprocess] is sharpening followed by resizing of
    the unmodified input; [sharpen_image] falls back to its input in the
    same way, and neither filter ever raises. *)
Theorem preprocess_fail_soft (ts : nat * nat) (image : img) (e : exn)
  (Hfail : hair_remove_body image = Raise e) :
  hair_remove image = Ok image /\
  preprocess ts image =
    try_except (s <- sharpen_image image ;; r <- resize_NEAREST s ts ;; Ok (Some r))
               (fun _ => Ok None) /\
  (forall x e', sharpen_body x = Raise e' -> sharpen_image x = Ok x) /\
  (forall x, exists r, hair_remove x = Ok r) /\
  (forall x, exists r, sharpen_image x = Ok r).
Proof.
  assert (Hh : hair_remove image = Ok image)
    by (unfold hair_remove; rewrite Hfail; reflexivity).
  split; [exact Hh|].
  split; [rewrite preprocess_unfold, Hh; reflexivity|].
  split; [exact sharpen_image_fail_soft|].
  split; [exact hair_remove_total | exact sharpen_image_total].
Qed.

(** [C10] [preprocess] and [process_bytes] never raise: they return an
    image or [None]. [preprocess] returns [None] exactly when the resize
    of the filtered image raises; [process_bytes] returns [None] exactly
    when decoding/colour conversion raises or [preprocess] returns [None]. *)
Theorem preprocess_returns_optional (ts : nat * nat) (image : img)
  (image_bytes : list Byte.byte) :
  (exists o, preprocess ts image = Ok o) /\
  (exists o, process_bytes ts image_bytes = Ok o) /\
  (preprocess ts image = Ok None <->
     exists h s e, hair_remove image = Ok h /\ sharpen_image h = Ok s /\
                   resize_NEAREST s ts = Raise e) /\
  (process_bytes ts image_bytes = Ok None <->
     (exists e, cvtColor_BGR2RGB (imdecode_COLOR image_bytes) = Raise e) \/
     (exists x, cvtColor_BGR2RGB (imdecode_COLOR image_bytes) = Ok x /\
                preprocess ts x = Ok None)).
Proof.
  assert (Hpre : forall x, exists o, preprocess ts x = Ok o).
  { intros x. unfold preprocess, try_except.
    destruct (_ <- hair_remove x ;; _) eqn:E; eauto. }
  assert (Hnone : forall x, preprocess ts x = Ok None <->
     exists h s e, hair_remove x = Ok h /\ sharpen_image h = Ok s /\
                   resize_NEAREST s ts = Raise e).
  { intros x.
    destruct (hair_remove_total x) as [h Hh].
    destruct (sharpen_image_total h) as [s Hs].
    rewrite preprocess_unfold, Hh. cbn [exc_bind]. rewrite Hs. cbn [exc_bind].
    destruct (resize_NEAREST s ts) as [r|e0] eqn:Er; cbn [exc_bind try_except].
    - split; [discriminate|].
      intros (h' & s' & e' & Hh' & Hs' & Er').
      assert (h' = h) by congruence. subst h'.
      assert (s' = s) by congruence. subst s'.
      congruence.
    - split; [intros _; exists h, s, e0; auto | reflexivity]. }
  split; [apply Hpre|].
  split.
  { unfold process_bytes, try_except.
    destruct (cvtColor_BGR2RGB (imdecode_COLOR image_bytes)) as [x|e0]; cbn; eauto.
    destruct (Hpre x) as [o ->]. eauto. }
  split; [apply Hnone|].
  unfold process_bytes, try_except.
  destruct (cvtColor_BGR2RGB (imdecode_COLOR image_bytes)) as [x|e0]; cbn.
  - destruct (Hpre x) as [o Ho]. rewrite Ho.
    split.
    + intros Hn. right. exists x. split; [reflexivity|congruence].
    + intros [[e1 He1] | (x' & Hx' & Hp)]; [discriminate|].
      injection Hx' as <-. congruence.
  - split; [intros _; left; eauto | reflexivity].
Qed.

End PreprocessingFacts.

(** A single-channel image makes the hair-removal colour conversion
    raise; [preprocess] still returns the resized, sharpened input. *)
Lemma preprocess_fail_soft_witness :
  hair_remove_body gray1_image = Raise (Cv2Error "cvtColor: scn == 3 || scn == 4") /\
  hair_remove gray1_image = Ok gray1_image /\
  preprocess (224%nat, 224%nat) gray1_image =
    try_except (s <- sharpen_image gray1_image ;;
                r <- resize_NEAREST s (224%nat, 224%nat) ;; Ok (Some r))
               (fun _ => Ok None).
Proof.
  assert (Hf : hair_remove_body gray1_image
               = Raise (Cv2Error "cvtColor: scn == 3 || scn == 4")) by reflexivity.
  split; [exact Hf|].
  destruct (preprocess_fail_soft (224%nat, 224%nat) gray1_image _ Hf) as (H1 & H2 & _).
  split; [exact H1 | exact H2].
Defined.

(** ** The cascade *)

(** [C8] When Stage 1 returns [[0.9, 0.1]] (index 0), Stage 2 is invoked
    (once, after Stage 1); if it returns class index 4, the response has
    [class_name = "Melanoma"], [model_used = "NASNetMobile"] and the
    Stage-2 probability at index 4 as confidence. *)
Theorem stage2_class4_is_melanoma {img : Type} `{Cv2 img}
  (svc : model_service img) (image_bytes : list Byte.byte)
  (image_array processed_image : img) (res : nasnet_result) (p : Q)
  (visualization_str : string)
  (Hdecode : pil_open_rgb svc image_bytes = Ok image_array)
  (Hpre : preprocess (224%nat, 224%nat) image_array = Ok (Some processed_image))
  (Hstage1 : mobilenet_probabilities svc processed_image = Ok [9 # 10; 1 # 10])
  (Hstage2 : nasnet_predict_with_gradcam svc processed_image = Ok res)
  (Hclass : nasnet_class_index res = 4%nat)
  (Hprob : nth_error (nasnet_probabilities res) 4 = Some p)
  (Hencode : encode_jpeg_base64 svc (gradcam_visualization res) = Ok visualization_str) :
  process_image svc image_bytes =
    ([Stage1Predict; Stage2PredictWithGradcam],
     Ok (mk_response "Melanoma" p "NASNetMobile" visualization_str)).
Proof.
  unfold process_image, mobilenet_predict.
  rewrite Hdecode. cbn [tbind lift].
  rewrite Hpre. cbn [tbind lift tret].
  rewrite Hstage1. cbn.
  rewrite Hstage2. cbn.
  unfold py_dict_get. rewrite Hclass, Hprob. cbn.
  rewrite Hencode. reflexivity.
Qed.

Lemma stage2_class4_is_melanoma_witness :
  process_image (demo_service [9 # 10; 1 # 10] (Ok stage2_class4)) gray_image_bytes =
    ([Stage1Predict; Stage2PredictWithGradcam],
     Ok (mk_response "Melanoma" (7 # 10) "NASNetMobile" "/9j/4AAQ")).
Proof.
  apply (stage2_class4_is_melanoma _ _ (mk_uimage 224 224 3 128) (mk_uimage 224 224 3 128)
           stage2_class4); reflexivity.
Defined.

(** Every request makes the adapter calls [[]], [[Stage1Predict]] or
    [[Stage1Predict; Stage2PredictWithGradcam]]: Stage 2 runs at most once
    and the Stage-1 attribution call is never made. *)
Theorem cascade_calls {img : Type} `{Cv2 img} (svc : model_service img)
  (image_bytes : list Byte.byte) :
  fst (process_image svc image_bytes) = [] \/
  fst (process_image svc image_bytes) = [Stage1Predict] \/
  fst (process_image svc image_bytes) = [Stage1Predict; Stage2PredictWithGradcam].
Proof.
  unfold process_image, mobilenet_predict.
  destruct (pil_open_rgb svc image_bytes) as [image_array|e]; cbn; [|auto].
  destruct (preprocess (224%nat, 224%nat) image_array) as [[processed|]|e]; cbn; [|auto|auto].
  destruct (mobilenet_probabilities svc processed) as [probs|e]; cbn; [|auto].
  destruct (py_index probs (argmax probs)) as [c|e]; cbn; [|auto].
  destruct (Nat.eqb (argmax probs) 0); cbn; [|auto].
  destruct (nasnet_predict_with_gradcam svc processed) as [res|e]; cbn; [|auto].
  destruct (py_dict_get nasnet_classes (nasnet_class_index res)) as [fc|e]; cbn; [|auto].
  destruct (py_dict_get (nasnet_probabilities res) (nasnet_class_index res)) as [fp|e];
    cbn; [|auto].
  destruct (encode_jpeg_base64 svc (gradcam_visualization res)); cbn; auto.
Qed.

(** [C1] The terminal branch (Stage 1 returns [[0.2, 0.8]], index 1) looks
    up [self.mobilenet.gradcam_visualization], an attribute
    [MobileNetPredictor] does not have: the request fails with status 500
    after the Stage-1 prediction, instead of completing with
    ["Melanoma"], confidence 0.8 and [model_used = "MobileNetV2"]. *)
Theorem stage1_terminal_request_fails :
  process_image (demo_service [2 # 10; 8 # 10] (Ok stage2_class4)) gray_image_bytes =
    ([Stage1Predict],
     Raise (HTTPException 500
              "'MobileNetPredictor' object has no attribute 'gradcam_visualization'")).
Proof. vm_compute. reflexivity. Qed.

(** Whatever exception a request raises, it leaves [process_image] as an
    [HTTPException] with status 500. *)
Theorem process_image_errors_are_500 {img : Type} `{Cv2 img}
  (svc : model_service img) (image_bytes : list Byte.byte) :
  match snd (process_image svc image_bytes) with
  | Ok _ => True
  | Raise (HTTPException code _) => code = 500%Z
  | Raise _ => False
  end.
Proof.
  unfold process_image.
  match goal with |- context [ttry_except ?m _] => destruct m as [l [a|e]] end.
  - exact I.
  - reflexivity.
Qed.

(** Undecodable bytes sent as ["image/png"], and an image whose
    preprocessing returns [None]: both answered with status 500. *)
Example invalid_images_get_500 :
  predict_endpoint (demo_service [2 # 10; 8 # 10] (Ok stage2_class4)) (Some "image/png")
    [Byte.x68; Byte.x65; Byte.x6c; Byte.x6c; Byte.x6f]
  = ([], Raise (HTTPException 500 "cannot identify image file")) /\
  predict_endpoint (demo_service [2 # 10; 8 # 10] (Ok stage2_class4)) (Some "image/png")
    [Byte.x00; Byte.x00; Byte.x03; Byte.x80]
  = ([], Raise (HTTPException 500 "Image preprocessing failed")).
Proof. split; vm_compute; reflexivity. Qed.

(** ** Heatmap normalisation *)

Section HeatmapFacts.

Lemma Qmin_cases (a b : Q) : Qmin a b = a \/ Qmin a b = b.
Proof. unfold Qmin, GenericMinMax.gmin. destruct (a ?= b); auto. Qed.

Lemma Qmax_cases (a b : Q) : Qmax a b = a \/ Qmax a b = b.
Proof. unfold Qmax, GenericMinMax.gmax. destruct (a ?= b); auto. Qed.

Lemma fold_min_lower (xs : list Q) : forall acc,
  fold_left Qmin xs acc <= acc /\ forall y, In y xs -> fold_left Qmin xs acc <= y.
Proof.
  induction xs as [|a xs IH]; intros acc; cbn.
  - split; [apply Qle_refl | tauto].
  - destruct (IH (Qmin acc a)) as [H1 H2]. split.
    + eapply Qle_trans; [exact H1 | apply Q.le_min_l].
    + intros y [<-|Hy]; [|auto].
      eapply Qle_trans; [exact H1 | apply Q.le_min_r].
Qed.

Lemma fold_max_upper (xs : list Q) : forall acc,
  acc <= fold_left Qmax xs acc /\ forall y, In y xs -> y <= fold_left Qmax xs acc.
Proof.
  induction xs as [|a xs IH]; intros acc; cbn.
  - split; [apply Qle_refl | tauto].
  - destruct (IH (Qmax acc a)) as [H1 H2]. split.
    + eapply Qle_trans; [apply Q.le_max_l | exact H1].
    + intros y [<-|Hy]; [|auto].
      eapply Qle_trans; [apply Q.le_max_r | exact H1].
Qed.

Lemma fold_min_in (xs : list Q) : forall acc, In (fold_left Qmin xs acc) (acc :: xs).
Proof.
  induction xs as [|a xs IH]; intros acc; cbn; [auto|].
  destruct (IH (Qmin acc a)) as [E|E]; [|auto].
  rewrite <- E. destruct (Qmin_cases acc a) as [-> | ->]; auto.
Qed.

Lemma fold_max_in (xs : list Q) : forall acc, In (fold_left Qmax xs acc) (acc :: xs).
Proof.
  induction xs as [|a xs IH]; intros acc; cbn; [auto|].
  destruct (IH (Qmax acc a)) as [E|E]; [|auto].
  rewrite <- E. destruct (Qmax_cases acc a) as [-> | ->]; auto.
Qed.

Lemma list_min_spec (l : list Q) (mn : Q) :
  list_min l = Ok mn -> In mn l /\ forall y, In y l -> mn <= y.
Proof.
  destruct l as [|x xs]; cbn; intros E; [discriminate|].
  injection E as <-. split; [apply fold_min_in|].
  destruct (fold_min_lower xs x) as [H1 H2].
  intros y [<-|Hy]; auto.
Qed.

Lemma list_max_spec (l : list Q) (mx : Q) :
  list_max l = Ok mx -> In mx l /\ forall y, In y l -> y <= mx.
Proof.
  destruct l as [|x xs]; cbn; intros E; [discriminate|].
  injection E as <-. split; [apply fold_max_in|].
  destruct (fold_max_upper xs x) as [H1 H2].
  intros y [<-|Hy]; auto.
Qed.

(** A cell of [map (map f) g] is [f] of a cell of [g]. *)
Lemma in_map_map_cell {A B} (f : A -> B) (g : list (list A)) row x :
  In row (map (map f) g) -> In x row -> exists y, In y (concat g) /\ x = f y.
Proof.
  intros Hrow Hx.
  apply in_map_iff in Hrow as (r & <- & Hr).
  apply in_map_iff in Hx as (y & <- & Hy).
  exists y. split; [apply in_concat; eauto | reflexivity].
Qed.

Lemma pytorch_normalize_in_unit (h hn : grid) :
  pytorch_normalize h = Ok hn -> forall row x, In row hn -> In x row -> 0 <= x <= 1.
Proof.
  unfold pytorch_normalize.
  destruct (list_min _) as [mn|e] eqn:Emn; cbn; [|discriminate].
  destruct (list_max _) as [mx|e] eqn:Emx; cbn; [|discriminate].
  intros E row x Hrow Hx. injection E as <-.
  apply list_min_spec in Emn as [_ Hmn].
  apply list_max_spec in Emx as [_ Hmx].
  destruct (in_map_map_cell _ _ _ _ Hrow Hx) as (y & Hy & ->).
  specialize (Hmn y Hy). specialize (Hmx y Hy).
  assert (Hd : 0 < mx - mn + eps) by (unfold eps; lra).
  split.
  - apply Qle_shift_div_l; [exact Hd | lra].
  - apply Qle_shift_div_r; [exact Hd | unfold eps in *; lra].
Qed.

Lemma pytorch_normalize_uniform (h hn : grid) (c : Q) :
  (forall row x, In row h -> In x row -> x == c) ->
  pytorch_normalize h = Ok hn -> forall row x, In row hn -> In x row -> x == 0.
Proof.
  intros Hu. unfold pytorch_normalize.
  destruct (list_min _) as [mn|e] eqn:Emn; cbn; [|discriminate].
  destruct (list_max _) as [mx|e] eqn:Emx; cbn; [|discriminate].
  intros E row x Hrow Hx. injection E as <-.
  assert (Hcell : forall z, In z (concat (map (map (Qmax 0)) h)) -> z == Qmax 0 c).
  { intros z Hz. rewrite <- concat_map in Hz.
    apply in_map_iff in Hz as (y & <- & Hy).
    apply in_concat in Hy as (r & Hr & Hy).
    rewrite (Hu r y Hr Hy). reflexivity. }
  apply list_min_spec in Emn as [Hin _].
  destruct (in_map_map_cell _ _ _ _ Hrow Hx) as (y & Hy & ->).
  rewrite (Hcell y Hy), (Hcell mn Hin).
  setoid_replace (Qmax 0 c - Qmax 0 c) with 0 by ring.
  unfold Qdiv. apply Qmult_0_l.
Qed.

Lemma tf_reduce_max_upper (h : grid) y : In y (concat h) -> y <= tf_reduce_max h.
Proof.
  unfold tf_reduce_max. destruct (concat h) as [|x xs]; [contradiction|].
  destruct (fold_max_upper xs x) as [H1 H2]. intros [<-|Hy]; auto.
Qed.

Lemma tf_normalize_in_unit (h : grid) :
  ~ tf_reduce_max h == 0 ->
  forall row v, In row (tf_normalize h) -> In v row -> exists q, v = Some q /\ 0 <= q <= 1.
Proof.
  intros Hm row v Hrow Hv. unfold tf_normalize in Hrow.
  destruct (in_map_map_cell _ _ _ _ Hrow Hv) as (y & Hy & ->).
  pose proof (tf_reduce_max_upper h y Hy) as Hle.
  set (m := tf_reduce_max h) in *.
  unfold fdiv. destruct (Qeq_bool m 0) eqn:E.
  { apply Qeq_bool_iff in E. contradiction. }
  eexists; split; [reflexivity|].
  destruct (Qlt_le_dec 0 m) as [Hpos|Hneg].
  - assert (0 <= Qmax y 0) by apply Q.le_max_r.
    assert (Qmax y 0 <= m) by (apply Q.max_lub; lra).
    split; [apply Qle_shift_div_l | apply Qle_shift_div_r]; lra.
  - assert (Hz : Qmax y 0 == 0) by (apply Q.max_r; lra).
    rewrite Hz. unfold Qdiv. rewrite Qmult_0_l. lra.
Qed.

Lemma tf_normalize_uniform_positive (h : grid) (c : Q) :
  0 < c -> h <> [] -> (forall row, In row h -> row <> []) ->
  (forall row x, In row h -> In x row -> x == c) ->
  forall row v, In row (tf_normalize h) -> In v row -> exists q, v = Some q /\ q == 1.
Proof.
  intros Hc Hne Hrne Hu row v Hrow Hv. unfold tf_normalize in Hrow.
  destruct (in_map_map_cell _ _ _ _ Hrow Hv) as (y & Hy & ->).
  assert (Hcell : forall z, In z (concat h) -> z == c).
  { intros z Hz. apply in_concat in Hz as (r & Hr & Hz). eauto. }
  assert (Hm : tf_reduce_max h == c).
  { unfold tf_reduce_max. destruct (concat h) as [|x xs] eqn:Ec; [contradiction|].
    apply Hcell, fold_max_in. }
  set (m := tf_reduce_max h) in *.
  unfold fdiv. destruct (Qeq_bool m 0) eqn:E.
  { apply Qeq_bool_iff in E. lra. }
  eexists; split; [reflexivity|].
  rewrite (Hcell y Hy), Hm.
  rewrite Q.max_l by lra.
  field. lra.
Qed.

End HeatmapFacts.

(** [C2] The TensorFlow variant normalises by [max(h, 0) / max(h)], not
    by the guarded min-max formula [(h - min) / (max - min + 1e-8)] of
    the PyTorch variant (whose cells are all in [0,1]): when the raw
    heatmap of the tape outputs is uniformly [c > 0], every TensorFlow
    cell is 1, while the min-max formula maps the same grid to zeros;
    when it is uniformly 0, every TensorFlow cell is NaN (0 / 0). *)
Theorem tf_heatmap_normalisation_diverges :
  (forall net x target_class hn,
     pytorch_grad_cam_heatmap net x target_class = Ok hn ->
     forall row v, In row hn -> In v row -> 0 <= v <= 1) /\
  (forall conv_output grads c,
     let h := tf_raw_heatmap (tf_weights grads) conv_output in
     0 < c -> h <> [] -> (forall row, In row h -> row <> []) ->
     (forall row v, In row h -> In v row -> v == c) ->
     (forall row v, In row (tensorflow_grad_cam_heatmap conv_output grads) -> In v row ->
        exists q, v = Some q /\ q == 1) /\
     (forall hn, pytorch_normalize h = Ok hn ->
        forall row v, In row hn -> In v row -> v == 0)) /\
  (forall conv_output grads,
     let h := tf_raw_heatmap (tf_weights grads) conv_output in
     (forall row v, In row h -> In v row -> v == 0) ->
     forall row v, In row (tensorflow_grad_cam_heatmap conv_output grads) -> In v row ->
     v = None).
Proof.
  split; [|split].
  - intros net x k hn E. unfold pytorch_grad_cam_heatmap in E.
    destruct (py_index _ _); cbn [exc_bind] in E; [|discriminate].
    destruct (accumulate _ _ _ _) as [h|e]; cbn [exc_bind] in E; [|discriminate].
    exact (pytorch_normalize_in_unit h hn E).
  - intros conv_output grads c h Hc Hne Hrows Hu. split.
    + exact (tf_normalize_uniform_positive h c Hc Hne Hrows Hu).
    + intros hn. exact (pytorch_normalize_uniform h hn c Hu).
  - intros conv_output grads h Hz row v Hrow Hv.
    unfold tensorflow_grad_cam_heatmap, tf_normalize in Hrow. fold h in Hrow.
    destruct (in_map_map_cell _ _ _ _ Hrow Hv) as (y & Hy & ->).
    assert (Hm : tf_reduce_max h == 0).
    { unfold tf_reduce_max. destruct (concat h) as [|x xs] eqn:Ec; [reflexivity|].
      pose proof (fold_max_in xs x) as Hin. rewrite <- Ec in Hin.
      apply in_concat in Hin as (r & Hr & Hin). exact (Hz r _ Hr Hin). }
    unfold fdiv. rewrite (proj2 (Qeq_bool_iff _ _) Hm). reflexivity.
Qed.

(** [C2] failing input: tape outputs whose raw heatmap is uniformly 1 give
    an all-ones heatmap; zero gradients give NaN cells. *)
Lemma tf_uniform_heatmap_not_zero :
  map (map (option_map Qred))
      (tensorflow_grad_cam_heatmap [[[1]; [1]]; [[1]; [1]]] [[[1]; [1]]; [[1]; [1]]])
    = [[Some 1; Some 1]; [Some 1; Some 1]] /\
  tensorflow_grad_cam_heatmap [[[1]; [1]]] [[[0]; [0]]] = [[None; None]].
Proof. split; vm_compute; reflexivity. Qed.

(** ** The Grad-CAM weights *)

Example example_net_logit : logit example_net 0 example_input == 2.
Proof. reflexivity. Qed.

(** [C3] [pytorch_grad_cam] averages [input_tensor.grad], the gradient
    with respect to the input image (one weight per input channel), not
    the gradient with respect to the target-layer activation: on
    [example_net] its weights are [[2]] where Grad-CAM's are [[1; 0]], and
    it then weights activation channel [i] by input channel [i]'s weight. *)
Theorem pytorch_weights_from_input_gradient :
  map Qred (pytorch_weights example_net example_input 0) = [2] /\
  map Qred (gradcam_spec_weights example_net 0) = [1; 0] /\
  pytorch_weights example_net example_input 0 <> gradcam_spec_weights example_net 0 /\
  match accumulate (zeros_like [[1]]) (activation example_net example_input) 0
          (pytorch_weights example_net example_input 0) with
  | Ok h => map (map Qred) h = [[4]]
  | Raise _ => False
  end /\
  map (map Qred) (gradcam_spec_raw_heatmap example_net example_input 0) = [[2]].
Proof.
  split; [vm_compute; reflexivity|].
  split; [vm_compute; reflexivity|].
  split; [vm_compute; discriminate|].
  split; vm_compute; reflexivity.
Qed.

(** ** Resolving the target layer *)

(** [C6] (amended) PyTorch: a name that no module of [named_modules()]
    carries raises [ValueError("Layer <name> not found in model")], with
    no fallback; a name that resolves gives that module. TensorFlow: a
    name that [get_layer] resolves gives that layer; a name no layer
    carries makes [get_layer] raise [ValueError], and the function falls
    back, once and without surfacing an error, to the last [Conv2D] layer
    of [model.layers]. *)
Theorem target_layer_resolution :
  (forall named_modules layer_name,
     find_named_module named_modules layer_name = None ->
     pytorch_target_layer named_modules layer_name
       = Raise (ValueError ("Layer " ++ layer_name ++ " not found in model"))) /\
  (forall named_modules layer_name m,
     find_named_module named_modules layer_name = Some m ->
     pytorch_target_layer named_modules layer_name = Ok m) /\
  (forall layers layer_name l,
     get_layer layers layer_name = Ok l ->
     tensorflow_target_layer layers layer_name = Ok l) /\
  (forall layers layer_name l,
     (forall l', In l' layers -> lname l' <> layer_name) ->
     find is_conv2d (rev layers) = Some l ->
     tensorflow_target_layer layers layer_name = Ok l).
Proof.
  split; [intros mods name E; unfold pytorch_target_layer; rewrite E; reflexivity|].
  split; [intros mods name m E; unfold pytorch_target_layer; rewrite E; reflexivity|].
  split; [intros layers name l E; unfold tensorflow_target_layer; rewrite E; reflexivity|].
  intros layers name l Hno Hconv.
  unfold tensorflow_target_layer, get_layer.
  destruct (find (fun l0 => String.eqb (lname l0) name) layers) as [l0|] eqn:E.
  - apply find_some in E as [Hin Heq].
    apply String.eqb_eq in Heq. exfalso. exact (Hno l0 Hin Heq).
  - rewrite Hconv. reflexivity.
Qed.

(** [C6] counterexample: a MobileNetV2-like module list with convolutions
    but no module named ["conv2d_93"] fails with no retry, while the
    TensorFlow variant silently uses the last [Conv2D] layer. *)
Lemma layer_not_found_handling :
  pytorch_target_layer [(""%string, OtherLayer); ("features", OtherLayer);
                        ("features.18.0", Conv2D); ("classifier", OtherLayer)]
                       "conv2d_93"
    = Raise (ValueError "Layer conv2d_93 not found in model") /\
  tensorflow_target_layer [mk_layer "input_1" OtherLayer; mk_layer "conv2d_1" Conv2D;
                           mk_layer "conv2d_2" Conv2D; mk_layer "dense" OtherLayer]
                          "conv2d_93"
    = Ok (mk_layer "conv2d_2" Conv2D).
Proof. split; reflexivity. Qed.

(** ** Compositing *)

Section CompositeFacts.

Lemma in_zip_with {A B C} (f : A -> B -> C) xs ys z :
  In z (zip_with f xs ys) -> exists x y, In x xs /\ In y ys /\ z = f x y.
Proof.
  revert ys. induction xs as [|x xs IH]; intros [|y ys]; cbn; try contradiction.
  intros [<-|Hz]; [exists x, y; auto|].
  destruct (IH ys Hz) as (x' & y' & ? & ? & ->). exists x', y'; auto.
Qed.

Lemma clip01_in_unit (v : Q) : 0 <= clip01 v <= 1.
Proof.
  unfold clip01. split.
  - apply Q.min_glb; [apply Q.le_max_r | lra].
  - apply Q.le_min_r.
Qed.

Lemma clip01_id (v w : Q) : 0 <= v <= 1 -> w == v -> clip01 w == v.
Proof.
  intros Hv Hw. unfold clip01. rewrite Hw.
  rewrite (Q.max_l v 0) by lra. apply Q.min_l. lra.
Qed.

Lemma sum_list_zero (l : list Q) : (forall x, In x l -> x == 0) -> sum_list l == 0.
Proof.
  induction l as [|x l IH]; intros Hz; [reflexivity|].
  change (sum_list (x :: l)) with (x + sum_list l).
  assert (Hs : sum_list l == 0) by (apply IH; intros y Hy; apply Hz; right; exact Hy).
  rewrite (Hz x (or_introl eq_refl)), Hs; ring.
Qed.

Lemma np_uint8_zero (v : Q) : v == 0 -> np_uint8 (255 * v) = 0.
Proof.
  intros Hv. unfold np_uint8.
  assert (H0 : 255 * v == 0) by (rewrite Hv; reflexivity).
  assert (Hle : Qle_bool 0 (255 * v) = true) by (apply Qle_bool_iff; rewrite H0; lra).
  rewrite Hle, (Qfloor_comp _ _ H0). reflexivity.
Qed.

Lemma forall2_of_lengths {A B} (R : A -> B -> Prop) (P1 : A -> Prop) (P2 : B -> Prop)
  (xs : list A) (ys : list B) :
  length xs = length ys -> (forall x, In x xs -> P1 x) -> (forall y, In y ys -> P2 y) ->
  (forall x y, P1 x -> P2 y -> R x y) -> Forall2 R xs ys.
Proof.
  revert ys. induction xs as [|x xs IH]; intros [|y ys]; cbn; intros Hl H1 H2 HR;
    try discriminate; constructor; auto.
Qed.

Variable alpha : Q.

Lemma blend_pixel (px cs : list Q) :
  length px = length cs -> (forall c, In c cs -> c = 0) ->
  (forall v, In v px -> 0 <= v <= 1) ->
  Forall2 Qeq (zip_with (fun o c => clip01 (o + alpha * c)) px cs) px.
Proof.
  revert cs. induction px as [|o px IH]; intros [|c cs]; cbn; intros Hl Hc Hv;
    try discriminate; constructor.
  - rewrite (Hc c (or_introl eq_refl)). apply clip01_id; [auto|ring].
  - apply IH; auto.
Qed.

Lemma blend_row (row : list (list Q)) (hr : list Q) :
  length row = length hr -> (forall c, In c hr -> c = 0) ->
  (forall px v, In px row -> In v px -> 0 <= v <= 1) ->
  Forall2 (Forall2 Qeq) (zip_with (zip_with (fun o c => clip01 (o + alpha * c))) row (zip_with red_pixel row hr)) row.
Proof.
  revert hr. induction row as [|px row IH]; intros [|c hr]; cbn; intros Hl Hc Hv;
    try discriminate; constructor.
  - apply blend_pixel.
    + destruct px; cbn; [reflexivity|]. rewrite length_map. reflexivity.
    + rewrite (Hc c (or_introl eq_refl)). destruct px as [|p rest]; cbn; [tauto|].
      intros c' [<-|Hin]; [reflexivity|]. apply in_map_iff in Hin as (? & <- & _). reflexivity.
    + eauto.
  - apply IH; auto. intros; eauto.
Qed.

Lemma blend_image (image : hwc) (hm : grid) :
  Forall2 (fun row hr => length row = length hr /\ forall c, In c hr -> c = 0) image hm ->
  (forall row px v, In row image -> In px row -> In v px -> 0 <= v <= 1) ->
  Forall2 (Forall2 (Forall2 Qeq))
    (zip_with (zip_with (zip_with (fun o c => clip01 (o + alpha * c)))) image (zip_with (zip_with red_pixel) image hm)) image.
Proof.
  intros HF. induction HF as [|row hr image hm [Hl Hc] HF IH]; cbn; intros Hv; constructor.
  - apply blend_row; eauto.
  - apply IH. intros; eauto.
Qed.

End CompositeFacts.

Lemma resize_linear_ok taps (heatmap : grid) (W H : nat) :
  (0 < length heatmap)%nat -> (0 < length (hd [] heatmap))%nat -> (0 < W)%nat -> (0 < H)%nat ->
  exists out, resize_linear taps heatmap (W, H) = Ok out.
Proof.
  intros H1 H2 H3 H4. unfold resize_linear. cbv beta iota zeta. cbn [fst snd].
  destruct (Nat.eqb (length heatmap) 0) eqn:E1; [apply Nat.eqb_eq in E1; lia|].
  destruct (Nat.eqb (length (hd [] heatmap)) 0) eqn:E2; [apply Nat.eqb_eq in E2; lia|].
  destruct (Nat.eqb W 0) eqn:E3; [apply Nat.eqb_eq in E3; lia|].
  destruct (Nat.eqb H 0) eqn:E4; [apply Nat.eqb_eq in E4; lia|].
  cbn [orb]. eexists. reflexivity.
Qed.

(** What [resize_linear] returns, when it returns. *)
Lemma resize_linear_result taps (heatmap : grid) (W H : nat) (out : grid) :
  resize_linear taps heatmap (W, H) = Ok out ->
  out = map (fun i =>
           map (fun j =>
                  sum_list (map (fun t => snd t * nth (snd (fst t)) (nth (fst (fst t)) heatmap []) 0)
                                (taps (length heatmap, length (hd [] heatmap)) (H, W) i j)))
               (seq 0 W))
          (seq 0 H).
Proof.
  unfold resize_linear. cbv beta iota zeta. cbn [fst snd].
  destruct (_ || _)%bool; [discriminate|].
  destruct (_ || _)%bool; [discriminate|].
  intros E. injection E as <-. reflexivity.
Qed.

Lemma resize_linear_zero taps (heatmap : grid) (W H : nat) (out : grid) :
  (forall row v, In row heatmap -> In v row -> v == 0) ->
  resize_linear taps heatmap (W, H) = Ok out ->
  length out = H /\
  (forall r, In r out -> length r = W) /\
  (forall r v, In r out -> In v r -> v == 0).
Proof.
  intros Hz Ho. apply resize_linear_result in Ho. subst out.
  split; [rewrite length_map, length_seq; reflexivity|].
  split.
  - intros r Hr. apply in_map_iff in Hr as (i & <- & _).
    rewrite length_map, length_seq. reflexivity.
  - intros r v Hr Hv. apply in_map_iff in Hr as (i & <- & _).
    apply in_map_iff in Hv as (j & <- & _).
    apply sum_list_zero. intros t Ht. apply in_map_iff in Ht as (tp & <- & _).
    destruct (nth_in_or_default (fst (fst tp)) heatmap []) as [Hrow|Hrow].
    + destruct (nth_in_or_default (snd (fst tp)) (nth (fst (fst tp)) heatmap []) 0)
        as [Hc|Hc].
      * rewrite (Hz _ _ Hrow Hc). ring.
      * rewrite Hc. ring.
    + rewrite Hrow. destruct (snd (fst tp)); cbn [nth]; ring.
Qed.

Lemma blend_zero_grid (alpha : Q) (image : hwc) (hm : grid) :
  length hm = length image ->
  (forall r, In r hm -> length r = length (hd [] image)) ->
  (forall r v, In r hm -> In v r -> v == 0) ->
  (forall row, In row image -> length row = length (hd [] image)) ->
  (forall row px v, In row image -> In px row -> In v px -> 0 <= v <= 1) ->
  Forall2 (Forall2 (Forall2 Qeq))
    (zip_with (zip_with (zip_with (fun o c => clip01 (o + alpha * c)))) image
       (zip_with (zip_with red_pixel) image (map (map (fun v => np_uint8 (255 * v))) hm)))
    image.
Proof.
  intros Hl Hw Hz Hrect Hv. apply blend_image; [|exact Hv].
  apply forall2_of_lengths with
    (P1 := fun row => length row = length (hd [] image))
    (P2 := fun hr => length hr = length (hd [] image) /\ forall c, In c hr -> c = 0).
  - rewrite length_map. auto.
  - exact Hrect.
  - intros hr Hhr. apply in_map_iff in Hhr as (r & <- & Hr).
    rewrite length_map. split; [auto|].
    intros c Hc. apply in_map_iff in Hc as (v & <- & Hv').
    apply np_uint8_zero. eauto.
  - intros row hr H1 [H2 H3]. split; [congruence | exact H3].
Qed.

(** An all-zero heatmap with at least one cell, overlaid on a non-empty
    rectangular image with samples in [0,1], gives back the image. *)
Lemma zero_overlay
  (taps : nat * nat -> nat * nat -> nat -> nat -> list (nat * nat * Q))
  (image : hwc) (heatmap : grid) (alpha : Q) :
  (forall row, In row image -> length row = length (hd [] image)) ->
  (forall row px v, In row image -> In px row -> In v px -> 0 <= v <= 1) ->
  (forall row v, In row heatmap -> In v row -> v == 0) ->
  (0 < length image)%nat -> (0 < length (hd [] image))%nat ->
  (0 < length heatmap)%nat -> (0 < length (hd [] heatmap))%nat ->
  exists out, apply_grad_cam taps image heatmap alpha = Ok out /\
    Forall2 (Forall2 (Forall2 Qeq)) out image.
Proof.
  intros Hrect Hv Hz HH HW Hh Hw.
  unfold apply_grad_cam. cbv zeta.
  match goal with |- context [if ?b then _ else _] => destruct b eqn:E end.
  - cbn [exc_bind]. eexists. split; [reflexivity|].
    apply andb_true_iff in E as [E1 E2].
    apply Nat.eqb_eq in E1. rewrite forallb_forall in E2.
    apply blend_zero_grid; auto.
    intros r Hr. symmetry. apply Nat.eqb_eq. auto.
  - destruct (resize_linear_ok taps heatmap (length (hd [] image)) (length image) Hh Hw HW HH)
      as [hm Hm].
    rewrite Hm. cbn [exc_bind]. eexists. split; [reflexivity|].
    destruct (resize_linear_zero taps heatmap _ _ hm Hz Hm) as (Hl & Hw' & Hz').
    apply blend_zero_grid; auto.
Qed.

(** [C9] Whenever [apply_grad_cam] returns, every sample of its output is
    in [0,1]. On the images its callers pass (rectangular, non-empty, every
    sample in [0,1]: the min-max normalised [original_image] of both
    Grad-CAM functions), an all-zero heatmap with at least one cell,
    whatever its shape and [alpha], gives back the input image, sample by
    sample. *)
Theorem apply_grad_cam_properties
  (taps : nat * nat -> nat * nat -> nat -> nat -> list (nat * nat * Q)) :
  (forall image heatmap alpha out,
     apply_grad_cam taps image heatmap alpha = Ok out ->
     forall row px v, In row out -> In px row -> In v px -> 0 <= v <= 1) /\
  (forall image heatmap alpha,
     (forall row, In row image -> length row = length (hd [] image)) ->
     (forall row px v, In row image -> In px row -> In v px -> 0 <= v <= 1) ->
     (forall row v, In row heatmap -> In v row -> v == 0) ->
     (0 < length image)%nat -> (0 < length (hd [] image))%nat ->
     (0 < length heatmap)%nat -> (0 < length (hd [] heatmap))%nat ->
     exists out, apply_grad_cam taps image heatmap alpha = Ok out /\
       Forall2 (Forall2 (Forall2 Qeq)) out image).
Proof.
  split.
  - intros image heatmap alpha out E row px v Hrow Hpx Hv.
    unfold apply_grad_cam in E. cbv zeta in E. revert E.
    match goal with |- context [exc_bind ?m _] => destruct m as [hm|e] end;
      cbn [exc_bind]; intros E; [|discriminate].
    injection E as <-.
    apply in_zip_with in Hrow as (r1 & r2 & _ & _ & ->).
    apply in_zip_with in Hpx as (p1 & p2 & _ & _ & ->).
    apply in_zip_with in Hv as (o & c & _ & _ & ->).
    apply clip01_in_unit.
  - intros image heatmap alpha. apply zero_overlay.
Qed.

Lemma apply_grad_cam_properties_witness :
  exists out,
    apply_grad_cam (fun _ _ _ _ => []) [[[1 # 2; 1 # 4; 0]]] [[0; 0]] (2 # 5) = Ok out /\
    Forall2 (Forall2 (Forall2 Qeq)) out [[[1 # 2; 1 # 4; 0]]].
Proof.
  apply (proj2 (apply_grad_cam_properties (fun _ _ _ _ => []))).
  - intros row [<-|[]]. reflexivity.
  - intros row px v [<-|[]] [<-|[]] [<-|[<-|[<-|[]]]]; lra.
  - intros row v [<-|[]] [<-|[<-|[]]]; reflexivity.
  - cbn. lia.
  - cbn. lia.
  - cbn. lia.
  - cbn. lia.
Defined.

(* ------------------------------------------------------------------ *)
(** * Further properties of the code *)

(** ** [MobileNetPredictor.predict] *)

(** Invariant of the [argmax_from] scan: after the prefix [pre], [best]
    indexes the first maximum [bv] of [pre]. *)
Lemma argmax_from_inv (xs : list Q) : forall (pre : list Q) (best : nat) (bv : Q),
  nth_error pre best = Some bv ->
  (forall q, In q pre -> q <= bv) ->
  (forall j q, (j < best)%nat -> nth_error pre j = Some q -> q < bv) ->
  exists v,
    nth_error (app pre xs) (argmax_from xs (length pre) best bv) = Some v /\
    (forall q, In q (app pre xs) -> q <= v) /\
    (forall j q, (j < argmax_from xs (length pre) best bv)%nat ->
                 nth_error (app pre xs) j = Some q -> q < v).
Proof.
  induction xs as [|x xs IH]; intros pre best bv H1 H2 H3.
  - cbn [argmax_from]. rewrite app_nil_r. exists bv. auto.
  - cbn [argmax_from].
    assert (Hb : (best < length pre)%nat) by (apply nth_error_Some; congruence).
    replace (app pre (x :: xs)) with (app (app pre [x]) xs)
      by (rewrite <- app_assoc; reflexivity).
    replace (S (length pre)) with (length (app pre [x]))
      by (rewrite length_app; cbn; lia).
    destruct (Qlt_le_dec bv x) as [Hlt|Hle]; apply IH.
    + rewrite nth_error_app2 by lia. rewrite Nat.sub_diag. reflexivity.
    + intros q Hq. apply in_app_or in Hq as [Hq|[<-|[]]]; [specialize (H2 q Hq); lra | lra].
    + intros j q Hj Hq. rewrite nth_error_app1 in Hq by exact Hj.
      specialize (H2 q (nth_error_In _ _ Hq)). lra.
    + rewrite nth_error_app1 by exact Hb. exact H1.
    + intros q Hq. apply in_app_or in Hq as [Hq|[<-|[]]]; auto.
    + intros j q Hj Hq. rewrite nth_error_app1 in Hq by lia. eauto.
Qed.

(** [predict] returns, on a non-empty probability vector, the index of its
    first maximal entry together with the vector itself; in particular
    [probabilities[class_index]] (app.py, line 78) is always in range. *)
Theorem mobilenet_predict_first_max {img : Type} (svc : model_service img)
  (image : img) (probs : list Q)
  (Hprobs : mobilenet_probabilities svc image = Ok probs) (Hne : probs <> []) :
  exists pred p,
    mobilenet_predict svc image = Ok pred /\ probabilities pred = probs /\
    nth_error probs (class_index pred) = Some p /\
    (forall q, In q probs -> q <= p) /\
    (forall j q, (j < class_index pred)%nat -> nth_error probs j = Some q -> q < p).
Proof.
  unfold mobilenet_predict. rewrite Hprobs. cbn [exc_bind].
  destruct probs as [|x xs]; [congruence|].
  destruct (argmax_from_inv xs [x] 0 x eq_refl)
    as (v & Hv & Hmax & Hfirst).
  - intros q [<-|[]]. lra.
  - intros j q Hj. lia.
  - exists (mk_prediction (argmax (x :: xs)) (x :: xs)), v. cbn [class_index probabilities].
    split; [reflexivity|]. split; [reflexivity|]. auto.
Qed.

Lemma mobilenet_predict_first_max_witness :
  exists pred p,
    mobilenet_predict (demo_service [1 # 10; 7 # 10; 7 # 10; 1 # 10] (Ok stage2_class4))
      gray1_image = Ok pred /\
    probabilities pred = [1 # 10; 7 # 10; 7 # 10; 1 # 10] /\
    nth_error [1 # 10; 7 # 10; 7 # 10; 1 # 10] (class_index pred) = Some p /\
    (forall q, In q [1 # 10; 7 # 10; 7 # 10; 1 # 10] -> q <= p) /\
    (forall j q, (j < class_index pred)%nat ->
                 nth_error [1 # 10; 7 # 10; 7 # 10; 1 # 10] j = Some q -> q < p).
Proof.
  apply (mobilenet_predict_first_max
           (demo_service [1 # 10; 7 # 10; 7 # 10; 1 # 10] (Ok stage2_class4)) gray1_image);
    [reflexivity | discriminate].
Defined.

(** ** The [/predict] endpoint and [process_image] *)

(** The endpoint answers with status 400 exactly when the request has a
    content type that does not start with ["image/"], and then it calls no
    model: the 400 that [process_image] raises for a failed preprocessing
    leaves it as a 500. A request without a content type calls no model
    either and fails with an exception that is not an [HTTPException]
    (answered 500 by the server). *)
Theorem predict_400_only_for_non_images {img : Type} `{Cv2 img}
  (svc : model_service img) (content_type : option string) (contents : list Byte.byte) :
  ((exists d, snd (predict_endpoint svc content_type contents) = Raise (HTTPException 400 d))
   <-> exists ct, content_type = Some ct /\ String.prefix "image/" ct = false) /\
  (forall ct, content_type = Some ct -> String.prefix "image/" ct = false ->
   fst (predict_endpoint svc content_type contents) = []) /\
  (content_type = None ->
   exists e, predict_endpoint svc content_type contents = ([], Raise e) /\
             forall code detail, e <> HTTPException code detail).
Proof.
  unfold predict_endpoint.
  destruct content_type as [ct|].
  - destruct (String.prefix "image/" ct) eqn:E.
    + split; [|split; [|discriminate]].
      * split.
        -- intros [d Hd]. exfalso. revert Hd. unfold process_image.
           match goal with |- context [ttry_except ?m _] => destruct m as [l [a|e]] end;
             cbn; congruence.
        -- intros (ct' & Hct & Hp). injection Hct as <-. congruence.
      * intros ct' Hct Hp. injection Hct as <-. congruence.
    + split; [|split; [|discriminate]].
      * split; [intros _; exists ct; split; [reflexivity | exact E]|]. intros _. eexists. reflexivity.
      * intros _ _ _. reflexivity.
  - split; [|split].
    + split; [intros [d Hd]; discriminate|]. intros (ct & Hct & _). discriminate.
    + intros ct Hct. discriminate.
    + intros _. eexists. split; [reflexivity|]. discriminate.
Qed.

(** A model is called only for a request whose content type is present
    and starts with ["image/"], whose bytes decode, and whose
    preprocessing returns an image. *)
Theorem models_called_only_on_valid_images {img : Type} `{Cv2 img}
  (svc : model_service img) (content_type : option string) (contents : list Byte.byte)
  (Hcall : fst (predict_endpoint svc content_type contents) <> []) :
  exists ct, content_type = Some ct /\ String.prefix "image/" ct = true /\
  exists image_array processed,
    pil_open_rgb svc contents = Ok image_array /\
    preprocess (224%nat, 224%nat) image_array = Ok (Some processed).
Proof.
  unfold predict_endpoint in Hcall.
  destruct content_type as [ct|]; [|cbn in Hcall; congruence].
  exists ct. split; [reflexivity|].
  destruct (String.prefix "image/" ct); [|cbn in Hcall; congruence].
  split; [reflexivity|].
  unfold process_image in Hcall.
  destruct (pil_open_rgb svc contents) as [a|e] eqn:Ea; cbn in Hcall; [|congruence].
  destruct (preprocess (224%nat, 224%nat) a) as [[p|]|e] eqn:Ep; cbn in Hcall;
    [exists a, p; split; first [reflexivity | assumption] | congruence | congruence].
Qed.

Lemma models_called_only_on_valid_images_witness :
  exists ct, Some "image/png" = Some ct /\ String.prefix "image/" ct = true /\
  exists image_array processed,
    pil_open_rgb (demo_service [9 # 10; 1 # 10] (Ok stage2_class4)) gray_image_bytes
      = Ok image_array /\
    preprocess (224%nat, 224%nat) image_array = Ok (Some processed).
Proof.
  apply (models_called_only_on_valid_images
           (demo_service [9 # 10; 1 # 10] (Ok stage2_class4)) (Some "image/png")
           gray_image_bytes).
  vm_compute. discriminate.
Defined.

(** Every successful response comes from the NASNet branch after exactly
    the calls [[Stage1Predict; Stage2PredictWithGradcam]]: Stage 1 chose
    index 0, and the class name and confidence are the entries of
    [nasnet_classes] and of the Stage-2 probabilities at the Stage-2
    index. *)
Theorem successful_response_from_stage2 {img : Type} `{Cv2 img}
  (svc : model_service img) (image_bytes : list Byte.byte) (r : response)
  (Hok : snd (process_image svc image_bytes) = Ok r) :
  model_used r = "NASNetMobile" /\
  fst (process_image svc image_bytes) = [Stage1Predict; Stage2PredictWithGradcam] /\
  exists image_array processed probs res,
    pil_open_rgb svc image_bytes = Ok image_array /\
    preprocess (224%nat, 224%nat) image_array = Ok (Some processed) /\
    mobilenet_probabilities svc processed = Ok probs /\
    argmax probs = 0%nat /\
    nasnet_predict_with_gradcam svc processed = Ok res /\
    nth_error nasnet_classes (nasnet_class_index res) = Some (class_name r) /\
    nth_error (nasnet_probabilities res) (nasnet_class_index res) = Some (confidence r) /\
    encode_jpeg_base64 svc (gradcam_visualization res) = Ok (visualization r).
Proof.
  unfold process_image, mobilenet_predict in *.
  destruct (pil_open_rgb svc image_bytes) as [a|e] eqn:E1; cbn in *; [|discriminate].
  destruct (preprocess (224%nat, 224%nat) a) as [[p|]|e] eqn:E2; cbn in *;
    [|discriminate|discriminate].
  destruct (mobilenet_probabilities svc p) as [probs|e] eqn:E3; cbn in *; [|discriminate].
  destruct (py_index probs (argmax probs)) as [c|e]; cbn in *; [|discriminate].
  destruct (Nat.eqb (argmax probs) 0) eqn:E4; cbn in *; [|discriminate].
  destruct (nasnet_predict_with_gradcam svc p) as [res|e] eqn:E5; cbn in *; [|discriminate].
  unfold py_dict_get in *.
  destruct (nth_error nasnet_classes (nasnet_class_index res)) as [fc|] eqn:E6;
    cbn in *; [|discriminate].
  destruct (nth_error (nasnet_probabilities res) (nasnet_class_index res)) as [fp|] eqn:E7;
    cbn in *; [|discriminate].
  destruct (encode_jpeg_base64 svc (gradcam_visualization res)) as [vs|e] eqn:E8;
    cbn in *; [|discriminate].
  injection Hok as <-. cbn.
  split; [reflexivity|]. split; [reflexivity|].
  apply Nat.eqb_eq in E4.
  exists a, p, probs, res. repeat split; assumption.
Qed.

Lemma successful_response_from_stage2_witness :
  let svc := demo_service [9 # 10; 1 # 10] (Ok stage2_class4) in
  let r := mk_response "Melanoma" (7 # 10) "NASNetMobile" "/9j/4AAQ" in
  model_used r = "NASNetMobile" /\
  fst (process_image svc gray_image_bytes) = [Stage1Predict; Stage2PredictWithGradcam] /\
  exists image_array processed probs res,
    pil_open_rgb svc gray_image_bytes = Ok image_array /\
    preprocess (224%nat, 224%nat) image_array = Ok (Some processed) /\
    mobilenet_probabilities svc processed = Ok probs /\
    argmax probs = 0%nat /\
    nasnet_predict_with_gradcam svc processed = Ok res /\
    nth_error nasnet_classes (nasnet_class_index res) = Some (class_name r) /\
    nth_error (nasnet_probabilities res) (nasnet_class_index res) = Some (confidence r) /\
    encode_jpeg_base64 svc (gradcam_visualization res) = Ok (visualization r).
Proof.
  intros svc r.
  apply (successful_response_from_stage2 svc gray_image_bytes r).
  vm_compute. reflexivity.
Defined.

(** A Stage-2 class index outside the seven entries of [nasnet_classes]
    makes [self.nasnet_classes[...]] raise a [KeyError]: the request ends
    with status 500 after both model calls. *)
Theorem stage2_unknown_class_is_500 {img : Type} `{Cv2 img}
  (svc : model_service img) (image_bytes : list Byte.byte)
  (image_array processed : img) (probs : list Q) (res : nasnet_result)
  (Hdecode : pil_open_rgb svc image_bytes = Ok image_array)
  (Hpre : preprocess (224%nat, 224%nat) image_array = Ok (Some processed))
  (Hstage1 : mobilenet_probabilities svc processed = Ok probs)
  (Hne : probs <> [])
  (Hfirst : argmax probs = 0%nat)
  (Hstage2 : nasnet_predict_with_gradcam svc processed = Ok res)
  (Hidx : (length nasnet_classes <= nasnet_class_index res)%nat) :
  process_image svc image_bytes =
    ([Stage1Predict; Stage2PredictWithGradcam], Raise (HTTPException 500 (py_str KeyError))).
Proof.
  unfold process_image, mobilenet_predict.
  rewrite Hdecode. cbn [tbind lift].
  rewrite Hpre. cbn [tbind lift tret].
  rewrite Hstage1. cbn [exc_bind invoke tbind class_index probabilities].
  rewrite Hfirst. destruct probs as [|q probs]; [congruence|]. cbn.
  rewrite Hstage2. cbn.
  unfold py_dict_get. rewrite (proj2 (nth_error_None _ _) Hidx). reflexivity.
Qed.

Lemma stage2_unknown_class_is_500_witness :
  process_image (demo_service [9 # 10; 1 # 10] (Ok (mk_nasnet_result 7 [] [])))
    gray_image_bytes =
    ([Stage1Predict; Stage2PredictWithGradcam], Raise (HTTPException 500 (py_str KeyError))).
Proof.
  apply (stage2_unknown_class_is_500 _ _ (mk_uimage 224 224 3 128) (mk_uimage 224 224 3 128)
           [9 # 10; 1 # 10] (mk_nasnet_result 7 [] []));
    first [reflexivity | discriminate | vm_compute; lia].
Defined.

(** ** [pytorch_grad_cam]: the channel loop and the normalisation *)






(** ** [tensorflow_grad_cam]: the division by the maximum *)

(** [tf.maximum(heatmap, 0) / reduce_max(heatmap)]: when the maximum is
    0 every cell is NaN; otherwise no cell is; when every cell is
    negative every cell is 0. *)
Theorem tf_normalize_nan_cases (h : grid) :
  (tf_reduce_max h == 0 ->
   forall row v, In row (tf_normalize h) -> In v row -> v = None) /\
  (~ tf_reduce_max h == 0 ->
   forall row v, In row (tf_normalize h) -> In v row -> exists q, v = Some q) /\
  (tf_reduce_max h < 0 ->
   forall row v, In row (tf_normalize h) -> In v row -> exists q, v = Some q /\ q == 0).
Proof.
  unfold tf_normalize.
  assert (Hb : Qeq_bool (tf_reduce_max h) 0 = true <-> tf_reduce_max h == 0)
    by apply Qeq_bool_iff.
  split; [|split].
  - intros Hm row v Hrow Hv.
    destruct (in_map_map_cell _ _ _ _ Hrow Hv) as (y & _ & ->).
    unfold fdiv. rewrite (proj2 Hb Hm). reflexivity.
  - intros Hm row v Hrow Hv.
    destruct (in_map_map_cell _ _ _ _ Hrow Hv) as (y & _ & ->).
    unfold fdiv. destruct (Qeq_bool _ 0) eqn:E; [exfalso; apply Hm, Qeq_bool_iff, E|].
    eexists. reflexivity.
  - intros Hm row v Hrow Hv.
    destruct (in_map_map_cell _ _ _ _ Hrow Hv) as (y & Hy & ->).
    pose proof (tf_reduce_max_upper h y Hy) as Hle.
    unfold fdiv. destruct (Qeq_bool _ 0) eqn:E.
    + exfalso. apply Qeq_bool_iff in E. lra.
    + eexists. split; [reflexivity|].
      rewrite (Q.max_r y 0) by lra. unfold Qdiv. apply Qmult_0_l.
Qed.

(** ** The original image returned by the Grad-CAM functions *)

Lemma in_map3_cell {A B} (f : A -> B) (x : list (list (list A))) row px v :
  In row (map (map (map f)) x) -> In px row -> In v px ->
  exists y, In y (concat (concat x)) /\ v = f y.
Proof.
  intros Hrow Hpx Hv.
  apply in_map_iff in Hrow as (r & <- & Hr).
  destruct (in_map_map_cell f r px v Hpx Hv) as (y & Hy & ->).
  exists y. split; [|reflexivity].
  apply in_concat in Hy as (l & Hl & Hy).
  apply in_concat. exists l. split; [apply in_concat; eauto | exact Hy].
Qed.

Lemma minmax_normalize_in_unit (x o : hwc) :
  minmax_normalize x = Ok o ->
  forall row px v, In row o -> In px row -> In v px -> 0 <= v <= 1.
Proof.
  unfold minmax_normalize.
  destruct (list_min _) as [mn|e] eqn:Emn; cbn [exc_bind]; [|discriminate].
  destruct (list_max _) as [mx|e] eqn:Emx; cbn [exc_bind]; [|discriminate].
  intros E row px v Hrow Hpx Hv. injection E as <-.
  apply list_min_spec in Emn as [_ Hmn].
  apply list_max_spec in Emx as [_ Hmx].
  destruct (in_map3_cell _ _ _ _ _ Hrow Hpx Hv) as (y & Hy & ->).
  specialize (Hmn y Hy). specialize (Hmx y Hy).
  assert (Hd : 0 < mx - mn + eps) by (unfold eps; lra).
  split.
  - apply Qle_shift_div_l; [exact Hd | lra].
  - apply Qle_shift_div_r; [exact Hd | unfold eps in *; lra].
Qed.

Lemma minmax_normalize_fails_iff_empty (x : hwc) :
  (exists e, minmax_normalize x = Raise e) <-> concat (concat x) = [].
Proof.
  unfold minmax_normalize.
  destruct (concat (concat x)) as [|y ys]; cbn.
  - split; [reflexivity | intros _; eexists; reflexivity].
  - split; [intros [e He]; discriminate | discriminate].
Qed.

Lemma chw_to_hwc_rect (t : list grid) :
  forall row, In row (chw_to_hwc t) -> length row = length (hd [] (chw_to_hwc t)).
Proof.
  unfold chw_to_hwc. intros row Hrow.
  apply in_map_iff in Hrow as (i & <- & Hi).
  destruct (seq 0 (length (first_grid t))) as [|i0 l]; [contradiction|].
  cbn [map hd]. rewrite !length_map. reflexivity.
Qed.

Lemma minmax_normalize_rect (x o : hwc) :
  minmax_normalize x = Ok o ->
  (forall row, In row x -> length row = length (hd [] x)) ->
  forall row, In row o -> length row = length (hd [] o).
Proof.
  unfold minmax_normalize.
  destruct (list_min _) as [mn|e]; cbn [exc_bind]; [|discriminate].
  destruct (list_max _) as [mx|e]; cbn [exc_bind]; [|discriminate].
  intros E Hx row Hrow. injection E as <-.
  apply in_map_iff in Hrow as (r & <- & Hr).
  destruct x as [|r0 x]; [contradiction|].
  cbn [map hd]. rewrite !length_map. apply Hx. exact Hr.
Qed.

(** The image both Grad-CAM functions return next to the heatmap has
    every sample in [0,1]; its normalisation fails only for an input with
    no sample. *)
Theorem original_image_in_unit :
  (forall t o, pytorch_original_image t = Ok o ->
     forall row px v, In row o -> In px row -> In v px -> 0 <= v <= 1) /\
  (forall t o, tf_original_image t = Ok o ->
     forall row px v, In row o -> In px row -> In v px -> 0 <= v <= 1) /\
  (forall t, (exists e, pytorch_original_image t = Raise e) <->
             concat (concat (chw_to_hwc t)) = []) /\
  (forall t, (exists e, tf_original_image t = Raise e) <-> concat (concat t) = []).
Proof.
  split; [|split; [|split]].
  - intros t o. apply minmax_normalize_in_unit.
  - intros t o. apply minmax_normalize_in_unit.
  - intros t. apply minmax_normalize_fails_iff_empty.
  - intros t. apply minmax_normalize_fails_iff_empty.
Qed.

Lemma rect_nonempty (x : hwc) :
  (forall row, In row x -> length row = length (hd [] x)) ->
  concat (concat x) <> [] ->
  (0 < length x)%nat /\ (0 < length (hd [] x))%nat.
Proof.
  intros Hrect Hne. destruct x as [|r0 x]; [cbn in Hne; contradiction|].
  split; [cbn; lia|]. cbn [hd]. destruct r0 as [|p r0]; [|cbn; lia].
  exfalso. apply Hne.
  assert (Hnil : concat ([] :: x) = []).
  { apply concat_nil_Forall. apply Forall_forall. intros r Hr.
    apply length_zero_iff_nil. exact (Hrect r Hr). }
  rewrite Hnil. reflexivity.
Qed.

(** The image [pytorch_grad_cam] returns has at least one row and one
    column. *)
Lemma pytorch_original_image_nonempty (t : list grid) (o : hwc) :
  pytorch_original_image t = Ok o ->
  (0 < length o)%nat /\ (0 < length (hd [] o))%nat.
Proof.
  intros Ho.
  assert (Hne : concat (concat (chw_to_hwc t)) <> []).
  { intros Hnil. destruct (proj2 (minmax_normalize_fails_iff_empty _) Hnil) as [e He].
    unfold pytorch_original_image in Ho. rewrite Ho in He. discriminate. }
  destruct (rect_nonempty _ (chw_to_hwc_rect t) Hne) as [H1 H2].
  unfold pytorch_original_image, minmax_normalize in Ho.
  revert Ho. destruct (list_min _) as [mn|e]; cbn [exc_bind]; [|discriminate].
  destruct (list_max _) as [mx|e]; cbn [exc_bind]; [|discriminate].
  intros Ho. injection Ho as <-.
  destruct (chw_to_hwc t) as [|r0 x]; [cbn in H1; lia|].
  cbn [hd] in H2. cbn [map hd]. rewrite length_map.
  split; [cbn [length]; lia | exact H2].
Qed.

(** Overlaying an all-zero heatmap with at least one cell on the image
    [pytorch_grad_cam] returns gives back that image, sample by sample,
    whatever [alpha] and the heatmap's shape. *)
Theorem pytorch_overlay_zero_heatmap
  (taps : nat * nat -> nat * nat -> nat -> nat -> list (nat * nat * Q))
  (t : list grid) (o : hwc) (heatmap : grid) (alpha : Q)
  (Ho : pytorch_original_image t = Ok o)
  (Hh : heatmap <> []) (Hw : hd [] heatmap <> [])
  (Hz : forall row v, In row heatmap -> In v row -> v == 0) :
  exists out, apply_grad_cam taps o heatmap alpha = Ok out /\
    Forall2 (Forall2 (Forall2 Qeq)) out o.
Proof.
  destruct (pytorch_original_image_nonempty t o Ho) as [HH HW].
  unfold pytorch_original_image in Ho.
  pose proof (minmax_normalize_in_unit _ _ Ho) as Hv.
  pose proof (minmax_normalize_rect _ _ Ho (chw_to_hwc_rect t)) as Hrect.
  apply zero_overlay; auto.
  - destruct heatmap; [contradiction | cbn; lia].
  - destruct (hd [] heatmap); [contradiction | cbn; lia].
Qed.

Lemma pytorch_overlay_zero_heatmap_witness :
  exists o out, pytorch_original_image [[[0; 1 # 2]; [1; 0]]] = Ok o /\
    apply_grad_cam (fun _ _ _ _ => []) o [[0]] (2 # 5) = Ok out /\
    Forall2 (Forall2 (Forall2 Qeq)) out o.
Proof.
  destruct (pytorch_original_image [[[0; 1 # 2]; [1; 0]]]) as [o|e] eqn:Ho;
    [|vm_compute in Ho; discriminate].
  destruct (pytorch_overlay_zero_heatmap (fun _ _ _ _ => []) [[[0; 1 # 2]; [1; 0]]] o [[0]] (2 # 5))
    as [out [E F]].
  - exact Ho.
  - discriminate.
  - discriminate.
  - intros row v [<-|[]] [<-|[]]. reflexivity.
  - exists o, out. split; [reflexivity|]. split; [exact E | exact F].
Defined.

(** ** [apply_grad_cam]: the colour channels *)

Lemma resize_linear_shape taps (heatmap out : grid) (W H : nat) :
  resize_linear taps heatmap (W, H) = Ok out ->
  length out = H /\ (forall r, In r out -> length r = W).
Proof.
  intros E. apply resize_linear_result in E. subst out.
  split; [rewrite length_map, length_seq; reflexivity|].
  intros r Hr. apply in_map_iff in Hr as (i & <- & _).
  rewrite length_map, length_seq. reflexivity.
Qed.

(** The heatmap [apply_grad_cam] overlays, when it has one, has the
    image's shape. *)
Lemma overlay_heatmap_shape taps (image : hwc) (heatmap hm : grid) :
  (if Nat.eqb (length image) (length heatmap) &&
      forallb (fun r => Nat.eqb (length (hd [] image)) (length r)) heatmap
   then Ok heatmap
   else resize_linear taps heatmap (length (hd [] image), length image)) = Ok hm ->
  length hm = length image /\ forall r, In r hm -> length r = length (hd [] image).
Proof.
  destruct (_ && _) eqn:E.
  - intros Eh. injection Eh as <-.
    apply andb_true_iff in E as [E1 E2].
    apply Nat.eqb_eq in E1. rewrite forallb_forall in E2.
    split; [auto|]. intros r Hr. symmetry. apply Nat.eqb_eq. auto.
  - apply resize_linear_shape.
Qed.

Lemma clip01_compat (v w : Q) : v == w -> clip01 v == clip01 w.
Proof. intros E. unfold clip01. rewrite E. reflexivity. Qed.

Section RedChannel.

Variable alpha : Q.

Lemma blend_zeros (rest : list Q) :
  Forall2 Qeq (zip_with (fun o c => clip01 (o + alpha * c)) rest (map (fun _ => 0) rest))
    (map clip01 rest).
Proof.
  induction rest as [|o rest IH]; cbn; constructor; [|exact IH].
  apply clip01_compat. ring.
Qed.

Lemma blend_pixel_tl (px : list Q) (v : Q) :
  Forall2 Qeq (tl (zip_with (fun o c => clip01 (o + alpha * c)) px (red_pixel px v)))
    (map clip01 (tl px)).
Proof. destruct px as [|o rest]; cbn; [constructor | apply blend_zeros]. Qed.

Lemma blend_row_tl (row : list (list Q)) (hr : list Q) :
  length row = length hr ->
  Forall2 (Forall2 Qeq)
    (map (@tl Q) (zip_with (zip_with (fun o c => clip01 (o + alpha * c))) row
                    (zip_with red_pixel row hr)))
    (map (fun px => map clip01 (tl px)) row).
Proof.
  revert hr. induction row as [|px row IH]; intros [|v hr]; cbn; intros Hl;
    try discriminate; constructor.
  - apply blend_pixel_tl.
  - apply IH. congruence.
Qed.

Lemma blend_image_tl (image : hwc) (hm : grid) :
  Forall2 (fun row hr => length row = length hr) image hm ->
  Forall2 (Forall2 (Forall2 Qeq))
    (map (map (@tl Q))
       (zip_with (zip_with (zip_with (fun o c => clip01 (o + alpha * c)))) image
          (zip_with (zip_with red_pixel) image hm)))
    (map (map (fun px => map clip01 (tl px))) image).
Proof.
  induction 1 as [|row hr image hm Hl HF IH]; cbn; constructor.
  - apply blend_row_tl. exact Hl.
  - exact IH.
Qed.

End RedChannel.

(** [apply_grad_cam] changes channel 0 only: for a rectangular image,
    whenever it returns, every other channel of the output is the input
    channel clipped to [0,1], whatever the heatmap and [alpha]. *)
Theorem apply_grad_cam_other_channels
  (taps : nat * nat -> nat * nat -> nat -> nat -> list (nat * nat * Q))
  (image : hwc) (heatmap : grid) (alpha : Q) (out : hwc)
  (Hrect : forall row, In row image -> length row = length (hd [] image))
  (Hout : apply_grad_cam taps image heatmap alpha = Ok out) :
  Forall2 (Forall2 (Forall2 Qeq))
    (map (map (@tl Q)) out)
    (map (map (fun px => map clip01 (tl px))) image).
Proof.
  unfold apply_grad_cam in Hout. cbv zeta in Hout. revert Hout.
  match goal with |- context [exc_bind ?m _] => destruct m as [hm|e] eqn:Em end;
    cbn [exc_bind]; intros Hout; [|discriminate].
  injection Hout as <-.
  destruct (overlay_heatmap_shape taps image heatmap hm Em) as [Hl Hw].
  apply blend_image_tl.
  apply forall2_of_lengths with
    (P1 := fun row => length row = length (hd [] image))
    (P2 := fun hr => length hr = length (hd [] image)).
  - rewrite length_map. symmetry. exact Hl.
  - exact Hrect.
  - intros hr Hhr. apply in_map_iff in Hhr as (r & <- & Hr).
    rewrite length_map. apply Hw. exact Hr.
  - intros row hr H1 H2. congruence.
Qed.

Lemma apply_grad_cam_other_channels_witness :
  exists out,
    apply_grad_cam (fun _ _ _ _ => []) [[[1 # 2; 2; -1]; [0; 1 # 4; 1 # 4]]] [[1; 1]] (2 # 5) = Ok out /\
    Forall2 (Forall2 (Forall2 Qeq))
      (map (map (@tl Q)) out)
      (map (map (fun px => map clip01 (tl px))) [[[1 # 2; 2; -1]; [0; 1 # 4; 1 # 4]]]).
Proof.
  destruct (apply_grad_cam (fun _ _ _ _ => []) [[[1 # 2; 2; -1]; [0; 1 # 4; 1 # 4]]] [[1; 1]] (2 # 5))
    as [out|e] eqn:E; [|vm_compute in E; discriminate].
  exists out. split; [reflexivity|].
  apply (apply_grad_cam_other_channels (fun _ _ _ _ => []) _ [[1; 1]] (2 # 5)).
  - intros row [<-|[]]. reflexivity.
  - exact E.
Defined.

Lemma nth_error_zip_with {A B C} (f : A -> B -> C) xs ys n :
  nth_error (zip_with f xs ys) n =
  match nth_error xs n, nth_error ys n with
  | Some x, Some y => Some (f x y)
  | _, _ => None
  end.
Proof.
  revert ys n. induction xs as [|x xs IH]; intros [|y ys] [|n]; cbn; try reflexivity.
  - destruct (nth_error xs n); reflexivity.
  - apply IH.
Qed.

Lemma np_uint8_at_least_3 (h : Q) : 3 # 255 <= h <= 1 -> 3 <= np_uint8 (255 * h).
Proof.
  intros Hh. unfold np_uint8.
  assert (Hle : Qle_bool 0 (255 * h) = true) by (apply Qle_bool_iff; lra).
  rewrite Hle.
  pose proof (Qfloor_le (255 * h)) as H1.
  pose proof (Qlt_floor (255 * h)) as H2.
  rewrite inject_Z_plus in H2. change (inject_Z 1) with 1 in H2.
  assert (Hlo : (2 < Qfloor (255 * h))%Z) by (rewrite Zlt_Qlt; change (inject_Z 2) with 2; lra).
  assert (Hhi : (Qfloor (255 * h) <= 255)%Z) by (rewrite Zle_Qle; change (inject_Z 255) with 255; lra).
  rewrite Z.mod_small by lia.
  change 3 with (inject_Z 3). rewrite <- Zle_Qle. lia.
Qed.

(** With the default [alpha = 0.4] that [predict_with_gradcam] uses,
    [apply_grad_cam] returns, and a pixel whose channel 0 is non-negative and whose heatmap cell (of a heatmap
    already of the image's shape) is at least [3/255] has channel 0 of
    the overlay saturated at 1: [np.uint8(255 * h)] is not rescaled to
    [0,1] before the blend. *)
Theorem apply_grad_cam_red_saturates
  (taps : nat * nat -> nat * nat -> nat -> nat -> list (nat * nat * Q))
  (image : hwc) (heatmap : grid) (i j : nat)
  (row : list (list Q)) (o : Q) (rest : list Q) (hr : list Q) (h : Q)
  (Hlen : length heatmap = length image)
  (Hwidth : forall r, In r heatmap -> length r = length (hd [] image))
  (Hrow : nth_error image i = Some row) (Hpx : nth_error row j = Some (o :: rest))
  (Hhr : nth_error heatmap i = Some hr) (Hcell : nth_error hr j = Some h)
  (Ho : 0 <= o) (Hh : 3 # 255 <= h <= 1) :
  exists out orow q qs,
    apply_grad_cam taps image heatmap (2 # 5) = Ok out /\
    nth_error out i = Some orow /\
    nth_error orow j = Some (q :: qs) /\ q == 1.
Proof.
  unfold apply_grad_cam. cbv zeta.
  assert (Hc : (Nat.eqb (length image) (length heatmap) &&
                forallb (fun r => Nat.eqb (length (hd [] image)) (length r)) heatmap) = true).
  { apply andb_true_iff. split.
    - apply Nat.eqb_eq. auto.
    - apply forallb_forall. intros r Hr. apply Nat.eqb_eq. symmetry. auto. }
  rewrite Hc. cbn [exc_bind].
  do 4 eexists. split; [reflexivity|].
  rewrite !nth_error_zip_with, nth_error_map, Hrow, Hhr. cbn [option_map].
  split; [reflexivity|].
  rewrite !nth_error_zip_with, nth_error_map, Hpx, Hcell. cbn [option_map red_pixel].
  split; [reflexivity|].
  pose proof (np_uint8_at_least_3 h Hh) as Hc3.
  unfold clip01.
  rewrite (Q.max_l (o + (2 # 5) * np_uint8 (255 * h)) 0) by lra.
  apply Q.min_r. lra.
Qed.

Lemma apply_grad_cam_red_saturates_witness :
  exists out orow q qs,
    apply_grad_cam (fun _ _ _ _ => []) [[[0; 0; 0]]] [[1]] (2 # 5) = Ok out /\
    nth_error out 0 = Some orow /\
    nth_error orow 0 = Some (q :: qs) /\ q == 1.
Proof.
  apply (apply_grad_cam_red_saturates (fun _ _ _ _ => []) [[[0; 0; 0]]] [[1]] 0 0
           [[0; 0; 0]] 0 [0; 0] [1] 1);
    first [reflexivity | (intros r [<-|[]]; reflexivity) | lra].
Defined.

(** ** [MobileNetV2Classifier.__init__]: which parameters train *)

Lemma existsb_eqb_in (i : nat) (l : list nat) : existsb (Nat.eqb i) l = true <-> In i l.
Proof.
  rewrite existsb_exists. split.
  - intros (x & Hx & E). apply Nat.eqb_eq in E. subst. exact Hx.
  - intros Hi. exists i. split; [exact Hi | apply Nat.eqb_refl].
Qed.

Lemma nth_map_false {A} (l : list A) (i : nat) : nth i (map (fun _ => false) l) false = false.
Proof.
  destruct (nth_in_or_default i (map (fun _ => false) l) false) as [Hin | ->]; [|reflexivity].
  apply in_map_iff in Hin as (x & <- & _). reflexivity.
Qed.

Lemma nth_map_seq {A} (f : nat -> A) (n i : nat) (d : A) :
  (i < n)%nat -> nth i (map f (seq 0 n)) d = f i.
Proof.
  intros Hi.
  rewrite nth_indep with (d' := f 0%nat) by (rewrite length_map, length_seq; exact Hi).
  rewrite map_nth, seq_nth by exact Hi. reflexivity.
Qed.

(** With [ModelConfig()] and the 19 modules of torchvision's
    [mobilenet_v2().features], the last 12 train. *)
Example default_config_trainable :
  mobilenet_init_trainable default_config 19 =
  mk_trainable (repeat false 7 ++ repeat true 12)%list true.
Proof. reflexivity. Qed.

(** After [__init__] the classifier trains and, with [k = stages * per_stage],
    feature module [i] of [n] trains iff [i >= n - k]; [k = 0] unfreezes
    every module, since [l[-0:]] is the whole list. *)
Theorem mobilenet_trainable_modules (config : ModelConfig) (n : nat) :
  let k := (num_unfreeze_stages config * layers_per_stage config)%nat in
  let st := mobilenet_init_trainable config n in
  classifier_trainable st = true /\
  length (features_trainable st) = n /\
  forall i, (i < n)%nat ->
    nth i (features_trainable st) false = (Nat.eqb k 0 || Nat.leb (n - k) i)%bool.
Proof.
  intros k st. subst st. unfold mobilenet_init_trainable. cbn [features_trainable classifier_trainable].
  split; [reflexivity|].
  split; [rewrite length_map, length_seq; reflexivity|].
  intros i Hi. fold k.
  rewrite nth_map_seq by exact Hi. cbv beta.
  rewrite nth_map_false.
  unfold py_slice_neg. destruct (Nat.eqb k 0) eqn:Ek; cbn [orb].
  - replace (existsb (Nat.eqb i) (seq 0 n)) with true; [reflexivity|].
    symmetry. apply existsb_eqb_in, in_seq. lia.
  - rewrite length_seq, skipn_seq. cbn [Nat.add].
    destruct (existsb (Nat.eqb i) _) eqn:Ee.
    + apply existsb_eqb_in, in_seq in Ee. symmetry. apply Nat.leb_le. lia.
    + symmetry. apply Nat.leb_gt. destruct (Nat.lt_ge_cases i (n - k)) as [Hlt|Hge]; [exact Hlt|].
      exfalso. assert (Hin : In i (seq (n - k) (n - (n - k)))) by (apply in_seq; lia).
      apply existsb_eqb_in in Hin. congruence.
Qed.
